(** * av_writer: muxing video frames and audio segments

    A shallow embedding of [pupil_src/shared_modules/av_writer.py].

    Conventions of the embedding.
    - Wall-clock timestamps, time bases and every quantity the Python code
      computes in floating point are exact rationals ([Q]); [int] is Python's
      truncation toward zero and [math.ceil] is [Qceiling]. Comparisons are
      as exact in Python as here. Sums, differences, products and quotients
      are exact here, while Python rounds each to a double: a candidate pts
      or the timestamp of a silent frame can differ from the program's in
      the last place, and nothing below is stated on such a value being
      the same.
    - [float("-inf")] as the initial "last pts" is the constructor [NegInf].
    - A generator is the finite list of the items it yields together with the
      way it ends (exhausted, returned early, or raised); a paused generator
      is what is left of it.
    - What PyAV, numpy and [os.path] compute is taken from the class
      [Libav]. The state of the video codec lives in the video stream;
      muxing, closing the container, saving files and logging are recorded
      in the writer's list of effects, in order. *)

From Stdlib Require Import ZArith QArith Qround List Sorted String Bool Lia Lqa.
Import ListNotations.

Local Open Scope Z_scope.

(** ** Numbers *)

(** Python's [int(x)] on a real number: truncation toward zero. *)
Definition int (x : Q) : Z :=
  if Qle_bool 0 x then Qfloor x else Qceiling x.

(** [math.ceil]. *)
Definition ceil (x : Q) : Z := Qceiling x.

(** The value of [last_video_pts] / [last_audio_pts]: minus infinity until a
    pts has been assigned. *)
Inductive last_pts : Type :=
| NegInf
| Fin (z : Z).

(** [max(pts, last + 1)] where [last] may be minus infinity. *)
Definition max_succ (pts : Z) (last : last_pts) : Z :=
  match last with
  | NegInf => pts
  | Fin l => Z.max pts (l + 1)
  end.

(** The comparison [x < y] of two numbers. *)
Definition Qltb (x y : Q) : bool := negb (Qle_bool y x).

(** [range(n)]. *)
Definition range (n : Z) : list Z :=
  List.map Z.of_nat (List.seq 0 (Z.to_nat n)).

(** ** Exceptions and generators *)

Inductive exn : Type :=
| ValueError
| KeyError
| IndexError
| AttributeError
| TypeError
| ZeroDivisionError.

(** How a generator ends once its items are consumed. [StopAfterSeek] is the
    early [return] of [iterate_audio_packets], which debug-logs first. *)
Inductive gen_end : Type :=
| StopIteration
| StopAfterSeek (audio_ts start_time : Q)
| Raise (e : exn).

Record gen (A : Type) : Type := mkGen {
  yielded : list A;
  ending : gen_end
}.
Arguments mkGen {A} _ _.
Arguments yielded {A} _.
Arguments ending {A} _.

Definition gen_of_list {A} (l : list A) : gen A := mkGen l StopIteration.
Definition gen_raise {A} (e : exn) : gen A := mkGen [] (Raise e).

(** [yield x] followed by the rest of the generator. *)
Definition gen_cons {A} (x : A) (g : gen A) : gen A :=
  mkGen (x :: yielded g) (ending g).

(** [yield from l] for a plain list, followed by the rest. *)
Definition gen_prepend {A} (l : list A) (g : gen A) : gen A :=
  mkGen (l ++ yielded g) (ending g).

(** [yield from g1] followed by [g2]: what follows runs only if [g1] is
    exhausted normally. *)
Definition gen_then {A} (g1 g2 : gen A) : gen A :=
  match ending g1 with
  | StopIteration => mkGen (yielded g1 ++ yielded g2) (ending g2)
  | _ => g1
  end.

(** ** Packets, frames and streams *)

Inductive stream_id : Type :=
| video_stream_id
| audio_stream_id.

Definition stream_is (a b : option stream_id) : bool :=
  match a, b with
  | Some video_stream_id, Some video_stream_id => true
  | Some audio_stream_id, Some audio_stream_id => true
  | _, _ => false
  end.

Record Packet : Type := mkPacket {
  stream : option stream_id;
  payload : list Byte.byte;
  pts : option Z;
  dts : option Z;
  duration : Z;
  time_base_of : option Q
}.

(** The input frame handed to the writer by the capture backend. *)
Record Frame : Type := mkFrame {
  width : Z;
  height : Z;
  timestamp : Q;
  index : Z;
  yuv_buffer : option (list Byte.byte);
  yuv422 : list Byte.byte * list Byte.byte * list Byte.byte;
  img : list Byte.byte;
  jpeg_buffer : list Byte.byte
}.

(** [av.VideoFrame], the reusable buffer of [MPEG_Writer]. *)
Record VideoFrame : Type := mkVideoFrame {
  vf_width : Z;
  vf_height : Z;
  vf_format : string;
  vf_time_base : Q;
  vf_planes : list (list Byte.byte);
  vf_pts : option Z
}.

Inductive audio_content : Type :=
| Decoded (samples_data : list Z)
| Zeros.

(** [av.AudioFrame]. *)
Record AudioFrame : Type := mkAudioFrame {
  af_samples : Z;
  af_format : string;
  af_layout : string;
  af_pts : option Z;
  af_sample_rate : Z;
  af_content : audio_content
}.

(** The codec context of the exported audio stream and its time base. *)
Record AudioStream : Type := mkAudioStream {
  sample_rate : Z;
  frame_size : Z;
  format_name : string;
  layout_name : string;
  audio_time_base : Q
}.

(** One loaded audio segment: [container.decode(audio=0)] and the
    wall-clock timestamp of each decoded frame. *)
Record AudioPart : Type := mkAudioPart {
  part_frames : list AudioFrame;
  part_timestamps : list Q;
  part_stream : AudioStream
}.

(** ** The media library

    [video_encode] is [video_stream.encode(frame)] ([None] flushes),
    [audio_encode] is [audio_export_stream.encode(frame)], [packet_bool] is
    the truth value of a packet object, [new_codec] and [add_audio_stream]
    are [container.add_stream] for the video codec and for the audio
    template, [Video_pts] is [Video(file_loc)] ([None] when the file is not
    valid, else its pts), [timestamps_location] is the path arithmetic
    of [write_timestamps] (directory, name, [_timestamps]), [extension] is
    the [ext] of [os.path.splitext] and [cpu_count] is [mp.cpu_count()]. *)
Class Libav : Type := {
  codec_state : Type;
  new_codec : string -> codec_state;
  video_encode : codec_state -> option VideoFrame -> list Packet * codec_state;
  audio_encode : AudioFrame -> list Packet;
  add_audio_stream : AudioStream -> AudioStream;
  packet_bool : Packet -> bool;
  Video_pts : string -> option (list Z);
  timestamps_location : string -> string;
  extension : string -> string;
  cpu_count : Z
}.

(** ** _AudioPacketIterator *)

Module AudioPacketIterator.

(** A raw item is a packet or [audio_part_end_marker] ([Ellipsis]). *)
Inductive raw_packet : Type :=
| Pkt (p : Packet)
| audio_part_end_marker.

Definition is_end_marker (x : option raw_packet) : bool :=
  match x with
  | Some audio_part_end_marker => true
  | _ => false
  end.

(** An element of [history]: [(None, None)] or a raw item with its
    timestamp. *)
Definition history_entry : Type := (option raw_packet * option Q)%type.

Definition _format_dtypes : list (string * string) :=
  [ ("dbl", "<f8"); ("dblp", "<f8"); ("flt", "<f4"); ("fltp", "<f4");
    ("s16", "<i2"); ("s16p", "<i2"); ("s32", "<i4"); ("s32p", "<i4");
    ("u8", "u1"); ("u8p", "u1") ]%string.

Fixpoint lookup (k : string) (d : list (string * string)) : option string :=
  match d with
  | [] => None
  | (k', v) :: d' => if String.eqb k k' then Some v else lookup k d'
  end.

Record t : Type := mk {
  start_time : Q;
  audio_parts : option (list AudioPart);
  audio_export_stream : AudioStream;
  fill_gaps : bool
}.

Section WithLibav.
Context {L : Libav}.

(** The packets of one encoded audio frame that pass [if packet:], each
    paired with [ts]. *)
Definition encode_with_ts (frame : AudioFrame) (ts : Q) : list (Packet * Q) :=
  List.map (fun packet => (packet, ts))
    (List.filter packet_bool (audio_encode frame)).

Definition clear_pts (frame : AudioFrame) : AudioFrame :=
  mkAudioFrame (af_samples frame) (af_format frame) (af_layout frame) None
    (af_sample_rate frame) (af_content frame).

(** The inner loops over one part: every frame of the part, zipped with
    the part's timestamps, encoded with its pts cleared. *)
Definition part_packets (audio_part : AudioPart) : list (Packet * Q) :=
  List.flat_map (fun ft : AudioFrame * Q =>
      encode_with_ts (clear_pts (fst ft)) (snd ft))
    (List.combine (part_frames audio_part) (part_timestamps audio_part)).

Definition with_ts_as_raw (pt : Packet * Q) : raw_packet * Q :=
  (Pkt (fst pt), snd pt).

Definition _iterate_audio_packets_with_part_marker
    (audio_parts : option (list AudioPart)) : list (raw_packet * Q) :=
  match audio_parts with
  | None => []
  | Some parts =>
      List.flat_map (fun audio_part =>
        List.map with_ts_as_raw (part_packets audio_part)
        ++ [(audio_part_end_marker, 0%Q)]) parts
  end.

(** The silent [av.AudioFrame] of one loop iteration. *)
Definition silent_frame (stream : AudioStream) (frame_samples : Z) : AudioFrame :=
  mkAudioFrame frame_samples (format_name stream) (layout_name stream) None
    (sample_rate stream) Zeros.

(** The body of [for frame_idx in range(frame_count)]: the frames that are
    built, each with the [frame_timestamp] its packets are yielded with.
    [1.0 / sample_rate] cannot fail here: with a sample rate of 0 the
    sample count is 0 and the loop has no iteration (lemma
    [no_silent_frame_at_rate_zero]). *)
Fixpoint silence_frames (stream : AudioStream) (sample_count : Z)
    (idxs : list Z) (frame_timestamp : Q) : list (AudioFrame * Q) :=
  match idxs with
  | [] => []
  | frame_idx :: idxs' =>
      let remaining_count := sample_count - frame_idx * frame_size stream in
      let frame_samples := Z.min remaining_count (frame_size stream) in
      (silent_frame stream frame_samples, frame_timestamp)
        :: silence_frames stream sample_count idxs'
             (frame_timestamp + 1 / inject_Z (sample_rate stream))%Q
  end.

Definition silence_sample_count (stream : AudioStream) (duration : Q) : Z :=
  int (inject_Z (sample_rate stream) * duration)%Q.

Definition silence_frame_count (stream : AudioStream) (duration : Q) : Z :=
  ceil (inject_Z (silence_sample_count stream duration)
        / inject_Z (frame_size stream))%Q.

Definition _generate_silence_packets (stream : AudioStream)
    (start_ts duration : Q) : gen (Packet * Q) :=
  match lookup (format_name stream) _format_dtypes with
  | None => gen_raise KeyError
  | Some _ =>
      let sample_count := silence_sample_count stream duration in
      if frame_size stream =? 0 then gen_raise ZeroDivisionError
      else
        let frame_count := silence_frame_count stream duration in
        gen_of_list
          (List.flat_map (fun ft => encode_with_ts (fst ft) (snd ft))
             (silence_frames stream sample_count (range frame_count) start_ts))
  end.

Definition _iterate_audio_packets (audio_parts : option (list AudioPart))
    : gen (Packet * Q) :=
  gen_of_list
    (List.flat_map (fun it : raw_packet * Q =>
        match fst it with
        | Pkt packet => [(packet, snd it)]
        | audio_part_end_marker => []
        end)
      (_iterate_audio_packets_with_part_marker audio_parts)).

(** [yield curr_packet, curr_ts] unless it is the end marker. *)
Definition yield_unless_marker (curr_packet : raw_packet) (curr_ts : Q)
    (rest : gen (Packet * Q)) : gen (Packet * Q) :=
  match curr_packet with
  | Pkt p => gen_cons (p, curr_ts) rest
  | audio_part_end_marker => rest
  end.

(** The loop of [_iterate_audio_packets_filling_gaps]. [history] is the
    Python list read from its end: the head here is its last element, so
    [pop] takes the head and [append] conses. *)
Fixpoint fill_loop (stream : AudioStream) (history : list history_entry)
    (items : list (raw_packet * Q)) : gen (Packet * Q) :=
  match items with
  | [] => gen_of_list []
  | (curr_packet, curr_ts) :: items' =>
      match history with
      | [] => gen_raise IndexError
      | (prev_packet, prev_ts) :: history1 =>
          if is_end_marker prev_packet then
            match history1 with
            | [] => gen_raise IndexError
            | (Some (Pkt prev), Some prev_ts') :: history2 =>
                let start_ts := (prev_ts' + inject_Z (duration prev))%Q in
                let duration := (curr_ts - start_ts)%Q in
                let silent_packets :=
                  _generate_silence_packets stream start_ts duration in
                gen_then silent_packets
                  (yield_unless_marker curr_packet curr_ts
                     (fill_loop stream
                        ((Some curr_packet, Some curr_ts) :: history2) items'))
            | (Some (Pkt _), None) :: _ => gen_raise TypeError
            | (_, _) :: _ => gen_raise AttributeError
            end
          else
            yield_unless_marker curr_packet curr_ts
              (fill_loop stream
                 ((Some curr_packet, Some curr_ts)
                    :: (prev_packet, prev_ts) :: history1) items')
      end
  end.

Definition _iterate_audio_packets_filling_gaps (self : t)
    (audio_parts : option (list AudioPart)) : gen (Packet * Q) :=
  fill_loop (audio_export_stream self) [(None, None)]
    (_iterate_audio_packets_with_part_marker audio_parts).

(** The loop of [iterate_audio_packets] over the items of the inner
    generator, which ends as [src_end]. *)
Fixpoint pts_loop (self : t) (last_audio_pts : last_pts)
    (items : list (Packet * Q)) (src_end : gen_end) : gen Packet :=
  match items with
  | [] => mkGen [] src_end
  | (packet, raw_ts) :: items' =>
      let audio_ts := (raw_ts - start_time self)%Q in
      if Qeq_bool (audio_time_base (audio_export_stream self)) 0 then
        gen_raise ZeroDivisionError
      else
        let audio_pts :=
          int (audio_ts / audio_time_base (audio_export_stream self))%Q in
        let audio_pts := max_succ audio_pts last_audio_pts in
        let packet' :=
          mkPacket (Some audio_stream_id) (payload packet) (Some audio_pts)
            (Some audio_pts) (duration packet) (time_base_of packet) in
        if Qltb audio_ts 0 then
          mkGen [] (StopAfterSeek audio_ts (start_time self))
        else
          gen_cons packet' (pts_loop self (Fin audio_pts) items' src_end)
  end.

Definition iterate_audio_packets (self : t) : gen Packet :=
  let packet_with_ts_iterator :=
    if fill_gaps self
    then _iterate_audio_packets_filling_gaps self (audio_parts self)
    else _iterate_audio_packets (audio_parts self) in
  pts_loop self NegInf (yielded packet_with_ts_iterator)
    (ending packet_with_ts_iterator).

End WithLibav.

End AudioPacketIterator.

(** ** Effects on the outside world *)

Inductive log_record : Type :=
| UnsupportedExtension (ext : string)          (* warning *)
| Opened (path : string)                       (* debug *)
| ContainerClosedAlready                       (* warning *)
| SkippingFrameBeforeSync                      (* debug *)
| MoreThanOnePacket                            (* warning *)
| EncodingFrameFailed (frame_index : Z)        (* warning *)
| ClosingMultipleTimes                         (* warning *)
| FailedToExtractPTS (file_loc : string)       (* error *)
| CouldNotMuxAudio                             (* debug *)
| SeekingAudio (audio_ts start_time : Q).      (* debug *)

Inductive effect : Type :=
| Log (r : log_record)
| Mux (packet : Packet)
| ContainerClose
| NpSave (file : string) (ts : list Q)
| NpSavetxt (file : string) (ts_pts : list (Q * Z)).

(** ** write_timestamps *)

Section WriteTimestamps.
Context {L : Libav}.

Definition one_of (s : string) (l : list string) : bool :=
  List.existsb (String.eqb s) l.

Definition write_timestamps (file_loc : string) (timestamps : list Q)
    (output_format : string) : list effect * option exn :=
  let ts_loc := timestamps_location file_loc in
  if negb (one_of output_format ["npy"; "csv"; "all"]%string) then
    ([], Some ValueError)
  else
    let saved :=
      if one_of output_format ["npy"; "all"]%string
      then [NpSave (ts_loc ++ ".npy") timestamps] else [] in
    if one_of output_format ["csv"; "all"]%string then
      match Video_pts file_loc with
      | None => (saved ++ [Log (FailedToExtractPTS file_loc)], None)
      | Some pts =>
          if Nat.eqb (List.length timestamps) (List.length pts) then
            (saved ++ [NpSavetxt (ts_loc ++ ".csv") (List.combine timestamps pts)],
             None)
          else (saved, Some ValueError)
      end
    else (saved, None).

End WriteTimestamps.

(** ** The writer object *)

Inductive writer_class : Type :=
| MPEG_Writer_class
| JPEG_Writer_class
| MPEG_Audio_Writer_class.

Record VideoStream {L : Libav} : Type := mkVideoStream {
  vs_height : option Z;
  vs_width : option Z;
  vs_pix_fmt : option string;
  vs_rate : Q;
  vs_bit_rate : Z;
  vs_bit_rate_tolerance : Z;
  vs_thread_count : Z;
  vs_codec : codec_state
}.
Arguments mkVideoStream {L} _ _ _ _ _ _ _ _.

Record AV_Writer {L : Libav} : Type := mkWriter {
  class_of : writer_class;
  timestamps : list Q;
  start_time : Q;
  last_video_pts : last_pts;
  time_base : Q;
  output_file_path : string;
  configured : bool;
  video_stream : VideoStream;
  closed : bool;
  frame : option VideoFrame;
  audio_parts : option (list AudioPart);
  audio_export_stream : option AudioStream;
  audio_packet_iterator : option (gen Packet);
  effects : list effect
}.
Arguments mkWriter {L} _ _ _ _ _ _ _ _ _ _ _ _ _ _.

Section Updates.
Context {L : Libav}.

Definition do_effects (self : AV_Writer) (es : list effect) : AV_Writer :=
  mkWriter (class_of self) (timestamps self) (start_time self)
    (last_video_pts self) (time_base self) (output_file_path self)
    (configured self) (video_stream self) (closed self) (frame self)
    (audio_parts self) (audio_export_stream self) (audio_packet_iterator self)
    (effects self ++ es).

Definition set_video_stream (self : AV_Writer) (vs : VideoStream) : AV_Writer :=
  mkWriter (class_of self) (timestamps self) (start_time self)
    (last_video_pts self) (time_base self) (output_file_path self)
    (configured self) vs (closed self) (frame self)
    (audio_parts self) (audio_export_stream self) (audio_packet_iterator self)
    (effects self).

Definition set_configured (self : AV_Writer) (b : bool) : AV_Writer :=
  mkWriter (class_of self) (timestamps self) (start_time self)
    (last_video_pts self) (time_base self) (output_file_path self)
    b (video_stream self) (closed self) (frame self)
    (audio_parts self) (audio_export_stream self) (audio_packet_iterator self)
    (effects self).

Definition set_closed (self : AV_Writer) (b : bool) : AV_Writer :=
  mkWriter (class_of self) (timestamps self) (start_time self)
    (last_video_pts self) (time_base self) (output_file_path self)
    (configured self) (video_stream self) b (frame self)
    (audio_parts self) (audio_export_stream self) (audio_packet_iterator self)
    (effects self).

Definition set_frame (self : AV_Writer) (f : option VideoFrame) : AV_Writer :=
  mkWriter (class_of self) (timestamps self) (start_time self)
    (last_video_pts self) (time_base self) (output_file_path self)
    (configured self) (video_stream self) (closed self) f
    (audio_parts self) (audio_export_stream self) (audio_packet_iterator self)
    (effects self).

Definition set_audio_packet_iterator (self : AV_Writer)
    (it : option (gen Packet)) : AV_Writer :=
  mkWriter (class_of self) (timestamps self) (start_time self)
    (last_video_pts self) (time_base self) (output_file_path self)
    (configured self) (video_stream self) (closed self) (frame self)
    (audio_parts self) (audio_export_stream self) it
    (effects self).

(** [self.last_video_pts = pts; self.timestamps.append(ts)]. *)
Definition accept (self : AV_Writer) (pts : Z) (ts : Q) : AV_Writer :=
  mkWriter (class_of self) (timestamps self ++ [ts]) (start_time self)
    (Fin pts) (time_base self) (output_file_path self)
    (configured self) (video_stream self) (closed self) (frame self)
    (audio_parts self) (audio_export_stream self) (audio_packet_iterator self)
    (effects self).

Definition set_size (vs : VideoStream) (h w : Z) : VideoStream :=
  mkVideoStream (Some h) (Some w) (vs_pix_fmt vs) (vs_rate vs) (vs_bit_rate vs)
    (vs_bit_rate_tolerance vs) (vs_thread_count vs) (vs_codec vs).

Definition set_pix_fmt (vs : VideoStream) (f : string) : VideoStream :=
  mkVideoStream (vs_height vs) (vs_width vs) (Some f) (vs_rate vs)
    (vs_bit_rate vs) (vs_bit_rate_tolerance vs) (vs_thread_count vs)
    (vs_codec vs).

Definition set_codec (vs : VideoStream) (c : codec_state) : VideoStream :=
  mkVideoStream (vs_height vs) (vs_width vs) (vs_pix_fmt vs) (vs_rate vs)
    (vs_bit_rate vs) (vs_bit_rate_tolerance vs) (vs_thread_count vs) c.

(** [video_stream.encode(frame)]: the codec's packets belong to the video
    stream. *)
Definition stream_encode (self : AV_Writer) (f : option VideoFrame)
    : list Packet * AV_Writer :=
  let (packets, c) := video_encode (vs_codec (video_stream self)) f in
  (List.map (fun p => mkPacket (Some video_stream_id) (payload p) (pts p)
                        (dts p) (duration p) (time_base_of p)) packets,
   set_video_stream self (set_codec (video_stream self) c)).

End Updates.

(** ** MPEG_Writer *)

Module MPEG_Writer.
Section WithLibav.
Context {L : Libav}.

Definition supported_extensions : list string := [".mp4"; ".mov"; ".mkv"]%string.
Definition codec : string := "mpeg4"%string.

(** [av.VideoFrame(width, height, format)]: three planes for the planar
    format, one for the packed one, not yet filled. *)
Definition new_VideoFrame (w h : Z) (pix_format : string) (tb : Q) : VideoFrame :=
  mkVideoFrame w h pix_format tb
    (if String.eqb pix_format "yuv422p" then [[]; []; []] else [[]]) None.

Definition on_first_frame (self : AV_Writer) (input_frame : Frame) : AV_Writer :=
  let pix_format :=
    match yuv_buffer input_frame with
    | Some _ => "yuv422p"%string
    | None => "bgr24"%string
    end in
  set_frame self
    (Some (new_VideoFrame (width input_frame) (height input_frame) pix_format
             (time_base self))).

(** [planes[i].update(data)] for each pair in turn; stops at the first
    plane that does not exist. The flag tells whether all were there. *)
Fixpoint update_planes (updates : list (nat * list Byte.byte))
    (planes : list (list Byte.byte)) : list (list Byte.byte) * bool :=
  match updates with
  | [] => (planes, true)
  | (i, data) :: updates' =>
      if Nat.ltb i (List.length planes) then
        update_planes updates'
          (List.firstn i planes ++ data :: List.skipn (S i) planes)
      else (planes, false)
  end.

Definition encode_frame (self : AV_Writer) (input_frame : Frame) (pts : Z)
    : gen Packet * AV_Writer :=
  match frame self with
  | None => (gen_raise AttributeError, self)
  | Some fr =>
      let updates :=
        match yuv_buffer input_frame with
        | Some _ =>
            let '(y, u, v) := yuv422 input_frame in [(0%nat, y); (1%nat, u); (2%nat, v)]
        | None => [(0%nat, img input_frame)]
        end in
      let (planes, ok) := update_planes updates (vf_planes fr) in
      if ok then
        let fr' := mkVideoFrame (vf_width fr) (vf_height fr) (vf_format fr)
                     (vf_time_base fr) planes (Some pts) in
        let (packets, self') := stream_encode (set_frame self (Some fr')) (Some fr') in
        (gen_of_list packets, self')
      else
        (gen_raise IndexError,
         set_frame self
           (Some (mkVideoFrame (vf_width fr) (vf_height fr) (vf_format fr)
                    (vf_time_base fr) planes (vf_pts fr))))
  end.

End WithLibav.
End MPEG_Writer.

(** ** JPEG_Writer *)

Module JPEG_Writer.
Section WithLibav.
Context {L : Libav}.

Definition supported_extensions : list string := [".mp4"]%string.
Definition codec : string := "mjpeg"%string.

Definition on_first_frame (self : AV_Writer) (input_frame : Frame) : AV_Writer :=
  set_video_stream self (set_pix_fmt (video_stream self) "yuvj422p").

Definition encode_frame (self : AV_Writer) (input_frame : Frame) (pts : Z)
    : gen Packet * AV_Writer :=
  let packet :=
    mkPacket (Some video_stream_id) (jpeg_buffer input_frame) (Some pts)
      (Some pts) 0 (Some (time_base self)) in
  (gen_of_list [packet], self).

End WithLibav.
End JPEG_Writer.

(** ** MPEG_Audio_Writer *)

Module MPEG_Audio_Writer.
Section WithLibav.
Context {L : Libav}.

Definition iterate_audio_packets (start_time : Q)
    (audio_export_stream : AudioStream) (audio_parts : option (list AudioPart))
    : gen Packet :=
  AudioPacketIterator.iterate_audio_packets
    (AudioPacketIterator.mk start_time audio_parts audio_export_stream true).

(** The loop [for audio_packet in self.audio_packet_iterator] of
    [encode_frame]: what is yielded now, and what is left of the iterator.
    An iterator that has ended stays ended. *)
Fixpoint drain (audio_time_base frame_ts : Q) (items : list Packet)
    (e : gen_end) : gen Packet * gen Packet :=
  match items with
  | [] => (mkGen [] e, mkGen [] StopIteration)
  | audio_packet :: items' =>
      match pts audio_packet with
      | None => (gen_raise TypeError, mkGen items' e)
      | Some audio_pts =>
          let audio_ts := (inject_Z audio_pts * audio_time_base)%Q in
          if Qltb frame_ts audio_ts then
            (gen_of_list [audio_packet], mkGen items' e)
          else
            let (now, left) := drain audio_time_base frame_ts items' e in
            (gen_cons audio_packet now, left)
      end
  end.

Definition encode_frame (self : AV_Writer) (input_frame : Frame) (pts : Z)
    : gen Packet * AV_Writer :=
  let (video, self1) := MPEG_Writer.encode_frame self input_frame pts in
  match ending video with
  | StopIteration =>
      match audio_parts self1 with
      | None => (video, self1)
      | Some _ =>
          match frame self1, audio_export_stream self1,
                audio_packet_iterator self1 with
          | Some fr, Some audio_stream, Some it =>
              match vf_pts fr with
              | None => (gen_then video (gen_raise TypeError), self1)
              | Some frame_pts =>
                  let frame_ts := (inject_Z frame_pts * time_base self1)%Q in
                  let (now, left) :=
                    drain (audio_time_base audio_stream) frame_ts
                      (yielded it) (ending it) in
                  (gen_then video now,
                   set_audio_packet_iterator self1 (Some left))
              end
          | _, _, _ => (gen_then video (gen_raise AttributeError), self1)
          end
      end
  | _ => (video, self1)
  end.

End WithLibav.
End MPEG_Audio_Writer.

(** ** AV_Writer *)

Section Writer.
Context {L : Libav}.

Definition supported_extensions (c : writer_class) : list string :=
  match c with
  | JPEG_Writer_class => JPEG_Writer.supported_extensions
  | _ => MPEG_Writer.supported_extensions
  end.

Definition codec (c : writer_class) : string :=
  match c with
  | JPEG_Writer_class => JPEG_Writer.codec
  | _ => MPEG_Writer.codec
  end.

Definition on_first_frame (self : AV_Writer) (input_frame : Frame) : AV_Writer :=
  match class_of self with
  | JPEG_Writer_class => JPEG_Writer.on_first_frame self input_frame
  | _ => MPEG_Writer.on_first_frame self input_frame
  end.

Definition encode_frame (self : AV_Writer) (input_frame : Frame) (pts : Z)
    : gen Packet * AV_Writer :=
  match class_of self with
  | MPEG_Writer_class => MPEG_Writer.encode_frame self input_frame pts
  | JPEG_Writer_class => JPEG_Writer.encode_frame self input_frame pts
  | MPEG_Audio_Writer_class => MPEG_Audio_Writer.encode_frame self input_frame pts
  end.

(** [AV_Writer.__init__]. *)
Definition init (c : writer_class) (path : string)
    (start_time_synced : Q) : AV_Writer :=
  let time_base := (1 # 65535)%Q in
  let ext := extension path in
  let warn :=
    if one_of ext (supported_extensions c) then []
    else [Log (UnsupportedExtension ext)] in
  let BIT_RATE := 15000 * 10000 in
  mkWriter c [] start_time_synced NegInf time_base path false
    (mkVideoStream None None None (1 / time_base)%Q BIT_RATE (BIT_RATE / 20)
       (Z.max 1 (cpu_count - 1)) (new_codec (codec c)))
    false None None None None
    (warn ++ [Log (Opened path)]).

(** [MPEG_Audio_Writer.__init__]; [loaded] is what [audio_utils.load_audio]
    gives, [None] when it raises [NoAudioLoadedError]. *)
Definition init_audio (path : string) (start_time_synced : Q)
    (loaded : option (list AudioPart)) : exn + AV_Writer :=
  let self := init MPEG_Audio_Writer_class path start_time_synced in
  match loaded with
  | None => inr (do_effects self [Log CouldNotMuxAudio])
  | Some [] => inl IndexError
  | Some (part0 :: _) =>
      let audio_stream := add_audio_stream (part_stream part0) in
      inr (mkWriter (class_of self) (timestamps self) (start_time self)
             (last_video_pts self) (time_base self) (output_file_path self)
             (configured self) (video_stream self) (closed self) (frame self)
             loaded (Some audio_stream)
             (Some (MPEG_Audio_Writer.iterate_audio_packets (start_time self)
                      audio_stream loaded))
             (effects self))
  end.

(** [close]: the writer afterwards and the exception raised, if any. *)
Definition close (self : AV_Writer) (timestamp_export_format : option string)
    : AV_Writer * option exn :=
  if closed self then (do_effects self [Log ClosingMultipleTimes], None)
  else
    let self1 :=
      if configured self then
        let (packets, s) := stream_encode self None in
        do_effects s (List.map Mux packets)
      else self in
    let self2 := set_closed (do_effects self1 [ContainerClose]) true in
    match configured self2, timestamp_export_format with
    | true, Some fmt =>
        let (es, r) :=
          write_timestamps (output_file_path self2) (timestamps self2) fmt in
        (do_effects self2 es, r)
    | _, _ => (self2, None)
    end.

Definition release (self : AV_Writer) : AV_Writer * option exn :=
  close self (Some "npy"%string).

(** How one call of [write_video_frame] ends: which [return] was taken or
    what was raised. [Written pts] is the normal end, with the pts that was
    given to the frame. *)
Inductive outcome : Type :=
| ContainerWasClosed
| SkippedBeforeSync
| NonMonotonicTimestamps (last_ts ts : Q)
| Raised (e : exn)
| EncodingFailed
| Written (pts : Z).

Definition raises (o : outcome) : bool :=
  match o with
  | NonMonotonicTimestamps _ _ | Raised _ => true
  | _ => false
  end.

(** [self.timestamps[-1]] when the list is not empty. *)
Definition last_timestamp (l : list Q) : option Q :=
  match l with
  | [] => None
  | _ => Some (List.last l 0%Q)
  end.

(** The block under [if not self.configured]. *)
Definition configure (self : AV_Writer) (input_frame : Frame) : AV_Writer :=
  if configured self then self
  else
    on_first_frame
      (set_configured
         (set_video_stream self
            (set_size (video_stream self) (height input_frame) (width input_frame)))
         true)
      input_frame.

(** The candidate pts made strongly monotonic. *)
Definition next_pts (self : AV_Writer) (input_frame : Frame) : Z :=
  let pts := int ((timestamp input_frame - start_time self) / time_base self)%Q in
  max_succ pts (last_video_pts self).

(** The body of [for packet in self.encode_frame(...)]: the calls made, and
    [video_packed_encoded] at the end. *)
Fixpoint mux_loop (video_packed_encoded : bool) (packets : list Packet)
    : list effect * bool :=
  match packets with
  | [] => ([], video_packed_encoded)
  | packet :: packets' =>
      if stream_is (stream packet) (Some video_stream_id) then
        let warn := if video_packed_encoded then [Log MoreThanOnePacket] else [] in
        let (es, b) := mux_loop true packets' in
        (warn ++ Mux packet :: es, b)
      else
        let (es, b) := mux_loop video_packed_encoded packets' in
        (Mux packet :: es, b)
  end.

(** From [pts = int(...)] to the end of [write_video_frame]. *)
Definition encode_and_mux (self : AV_Writer) (input_frame : Frame)
    : AV_Writer * outcome :=
  let ts := timestamp input_frame in
  let pts := next_pts self input_frame in
  let (packets, self1) := encode_frame self input_frame pts in
  let (es, video_packed_encoded) := mux_loop false (yielded packets) in
  let self2 := do_effects self1 es in
  match ending packets with
  | Raise e => (self2, Raised e)
  | end_of_packets =>
      let self3 :=
        match end_of_packets with
        | StopAfterSeek audio_ts start => do_effects self2 [Log (SeekingAudio audio_ts start)]
        | _ => self2
        end in
      if negb video_packed_encoded then
        (do_effects self3 [Log (EncodingFrameFailed (index input_frame))],
         EncodingFailed)
      else (accept self3 pts ts, Written pts)
  end.

Definition write_video_frame (self : AV_Writer) (input_frame : Frame)
    : AV_Writer * outcome :=
  if closed self then
    (do_effects self [Log ContainerClosedAlready], ContainerWasClosed)
  else
    let self := configure self input_frame in
    let ts := timestamp input_frame in
    if Qltb ts (start_time self) then
      (do_effects self [Log SkippingFrameBeforeSync], SkippedBeforeSync)
    else
      match last_timestamp (timestamps self) with
      | Some last_ts =>
          if Qltb ts last_ts then
            match release self with
            | (self', None) => (self', NonMonotonicTimestamps last_ts ts)
            | (self', Some e) => (self', Raised e)
            end
          else encode_and_mux self input_frame
      | None => encode_and_mux self input_frame
      end.

(** Feeding frames one after the other; the caller goes on after an
    exception. *)
Fixpoint write_video_frames (self : AV_Writer) (frames : list Frame)
    : AV_Writer * list outcome :=
  match frames with
  | [] => (self, [])
  | f :: frames' =>
      let (self1, o) := write_video_frame self f in
      let (self2, os) := write_video_frames self1 frames' in
      (self2, o :: os)
  end.

End Writer.

(** ** A concrete media library, for running the model

    The video codec holds one frame back: a frame's packet comes out when
    the next frame (or the flush) goes in. The audio codec turns every frame
    into one packet whose duration is the number of samples. *)

Definition delayed_video_encode (pending : option Z) (f : option VideoFrame)
    : list Packet * option Z :=
  let out :=
    match pending with
    | Some p => [mkPacket None [] (Some p) (Some p) 0 None]
    | None => []
    end in
  match f with
  | Some fr => (out, vf_pts fr)
  | None => (out, None)
  end.

Definition sample_libav : Libav := {|
  codec_state := option Z;
  new_codec := fun _ => None;
  video_encode := delayed_video_encode;
  audio_encode := fun f => [mkPacket None [] None None (af_samples f) None];
  add_audio_stream := fun template => template;
  packet_bool := fun _ => true;
  Video_pts := fun _ => None;
  timestamps_location := fun _ => "world_timestamps"%string;
  extension := fun _ => ".mp4"%string;
  cpu_count := 4
|}.

Definition frame_at (ts : Q) (i : Z) : Frame :=
  mkFrame 640 480 ts i None ([], [], []) [] [].

Definition sample_audio_stream : AudioStream :=
  mkAudioStream 48000 1024 "fltp" "stereo" (1 # 48000).

(** A decoded audio frame of 1024 samples. *)
Definition sample_audio_frame : AudioFrame :=
  mkAudioFrame 1024 "fltp" "stereo" (Some 0) 48000 (Decoded []).

(** An audio part of [n] frames, the first at [t0], one every [step]. *)
Fixpoint sample_timestamps (n : nat) (t0 step : Q) : list Q :=
  match n with
  | O => []
  | S n' => t0 :: sample_timestamps n' (Qred (t0 + step)) step
  end.

Definition sample_part (n : nat) (t0 step : Q) : AudioPart :=
  mkAudioPart (List.repeat sample_audio_frame n) (sample_timestamps n t0 step)
    sample_audio_stream.

(** ** Observations on a run of the writer *)

(** The pts given to the frames that were written, in call order. *)
Fixpoint assigned_pts (os : list outcome) : list Z :=
  match os with
  | [] => []
  | Written pts :: os' => pts :: assigned_pts os'
  | _ :: os' => assigned_pts os'
  end.

(** Every written frame got [max(int((ts - start_time) / time_base),
    last + 1)], where [last] is the pts of the written frame before it
    ([last0] for the first one). *)
Fixpoint pts_chain (start tb : Q) (last0 : last_pts)
    (calls : list (Frame * outcome)) : Prop :=
  match calls with
  | [] => True
  | (f, Written p) :: calls' =>
      p = max_succ (int ((timestamp f - start) / tb)%Q) last0
      /\ pts_chain start tb (Fin p) calls'
  | _ :: calls' => pts_chain start tb last0 calls'
  end.

(** The pts of the video packets handed to [container.mux], in order. *)
Fixpoint muxed_video_pts (es : list effect) : list (option Z) :=
  match es with
  | [] => []
  | Mux packet :: es' =>
      if stream_is (stream packet) (Some video_stream_id)
      then pts packet :: muxed_video_pts es'
      else muxed_video_pts es'
  | _ :: es' => muxed_video_pts es'
  end.

(** A frame was turned away because of its timestamp. *)
Definition rejected_for_timestamp (o : outcome) : bool :=
  match o with
  | SkippedBeforeSync | NonMonotonicTimestamps _ _ => true
  | _ => false
  end.

(** The fields of the writer that only [write_video_frame] itself and the
    constructor set. *)
Definition ledger_fields {L : Libav} (w : AV_Writer) :=
  (timestamps w, last_video_pts w, start_time w, time_base w, class_of w,
   output_file_path w).

(** [p] lies above the last pts. *)
Definition above (last : last_pts) (p : Z) : Prop :=
  match last with
  | NegInf => True
  | Fin l => l < p
  end.

Section StepSpec.
Context {L : Libav}.

Definition ledger_unchanged (w w' : AV_Writer) : Prop :=
  last_video_pts w' = last_video_pts w /\ timestamps w' = timestamps w.

(** What one call does to the ledger and the last pts, by outcome. *)
Definition step_spec (w : AV_Writer) (f : Frame) (w' : AV_Writer) (o : outcome)
    : Prop :=
  match o with
  | Written p =>
      closed w = false
      /\ (start_time w <= timestamp f)%Q
      /\ (forall l, last_timestamp (timestamps w) = Some l -> (l <= timestamp f)%Q)
      /\ p = max_succ (int ((timestamp f - start_time w) / time_base w)%Q)
               (last_video_pts w)
      /\ last_video_pts w' = Fin p
      /\ timestamps w' = timestamps w ++ [timestamp f]
  | SkippedBeforeSync =>
      (timestamp f < start_time w)%Q /\ ledger_unchanged w w'
  | NonMonotonicTimestamps l t =>
      last_timestamp (timestamps w) = Some l /\ t = timestamp f /\ (t < l)%Q
      /\ ledger_unchanged w w'
  | _ => ledger_unchanged w w'
  end.

End StepSpec.

Section MoreObservations.
Context {L : Libav}.

(** Further calls of [close], one per export format given: the writer at
    the end and what each call raised. *)
Fixpoint close_again (w : AV_Writer) (fmts : list (option string))
    : AV_Writer * list (option exn) :=
  match fmts with
  | [] => (w, [])
  | fmt :: fmts' =>
      let (w1, r) := close w fmt in
      let (w2, rs) := close_again w1 fmts' in
      (w2, r :: rs)
  end.

Definition is_video (packet : Packet) : bool :=
  stream_is (stream packet) (Some video_stream_id).

(** What is logged when the packets of [encode_frame] run out. *)
Definition end_log (e : gen_end) : list effect :=
  match e with
  | StopAfterSeek audio_ts start => [Log (SeekingAudio audio_ts start)]
  | _ => []
  end.

End MoreObservations.

(** The time of an audio packet, [pts] times the audio time base, against
    the time of the video frame. *)
Definition later_than (audio_tb frame_ts : Q) (a : Packet) : Prop :=
  match pts a with
  | Some q => (frame_ts < inject_Z q * audio_tb)%Q
  | None => False
  end.

Definition not_later_than (audio_tb frame_ts : Q) (a : Packet) : Prop :=
  match pts a with
  | Some q => (inject_Z q * audio_tb <= frame_ts)%Q
  | None => False
  end.

(** A writer with audio, ready for its second frame: three audio frames
    0.1 s apart from the start, and a first video frame already seen. *)
Definition sample_audio_writer : AV_Writer (L:=sample_libav) :=
  match init_audio "world.mp4" 0 (Some [sample_part 3 0 (1 # 10)]) with
  | inr w => configure w (frame_at 0 0)
  | inl _ => init MPEG_Audio_Writer_class "world.mp4" 0
  end.

(** ** Rounding and sample counts, for the statements on silence *)

(** [round(x)] as the property on silence words it: to the nearest
    integer, a tie going to the even one. *)
Definition py_round (x : Q) : Z :=
  let f := Qfloor x in
  match (x - inject_Z f ?= 1 # 2)%Q with
  | Lt => f
  | Gt => f + 1
  | Eq => if Z.even f then f else f + 1
  end.

(** The number of samples of each generated silent frame. *)
Definition frame_sizes (frames : list (AudioFrame * Q)) : list Z :=
  List.map (fun ft => af_samples (fst ft)) frames.

Definition total (sizes : list Z) : Z := List.fold_right Z.add 0 sizes.

(** The history entry of a yielded packet. *)
Definition history_of (pt : Packet * Q) : AudioPacketIterator.history_entry :=
  (Some (AudioPacketIterator.Pkt (fst pt)), Some (snd pt)).

(** ** Further observations *)

(** The packets handed to [container.mux], in order. *)
Fixpoint muxed_packets (es : list effect) : list Packet :=
  match es with
  | [] => []
  | Mux packet :: es' => packet :: muxed_packets es'
  | _ :: es' => muxed_packets es'
  end.

(** The timestamps of the frames that were written, in call order. *)
Fixpoint written_timestamps (calls : list (Frame * outcome)) : list Q :=
  match calls with
  | [] => []
  | (f, Written _) :: calls' => timestamp f :: written_timestamps calls'
  | _ :: calls' => written_timestamps calls'
  end.

(** How often the warning about a second packet for one frame is among the
    effects. *)
Fixpoint count_more_than_one (es : list effect) : nat :=
  match es with
  | [] => O
  | Log MoreThanOnePacket :: es' => S (count_more_than_one es')
  | _ :: es' => count_more_than_one es'
  end.

(** The candidate pts of a frame, before it is made monotonic. *)
Definition candidate_pts (start tb : Q) (f : Frame) : Z :=
  int ((timestamp f - start) / tb)%Q.

(** The packet [JPEG_Writer.encode_frame] builds. *)
Definition jpeg_packet (tb : Q) (f : Frame) (p : Z) : Packet :=
  mkPacket (Some video_stream_id) (jpeg_buffer f) (Some p) (Some p) 0 (Some tb).

(** The pts of audio packets, for those that have one. *)
Fixpoint pts_values (packets : list Packet) : list Z :=
  match packets with
  | [] => []
  | packet :: packets' =>
      match pts packet with
      | Some q => q :: pts_values packets'
      | None => pts_values packets'
      end
  end.

(** A packet as [iterate_audio_packets] leaves it: on the audio stream,
    with a pts and a dts that are the same. *)
Definition stamped_for_audio (packet : Packet) : Prop :=
  stream packet = Some audio_stream_id
  /\ exists q, pts packet = Some q /\ dts packet = Some q.

(** The audio codec of [sample_audio_stream] with a frame size of 0, as
    PCM codecs report it. *)
Definition sample_pcm_stream : AudioStream :=
  mkAudioStream 48000 0 "s16" "stereo" (1 # 48000).

(** A media library whose video codec turns every frame into two packets,
    and gives nothing on a flush. *)
Definition two_packet_libav : Libav := {|
  codec_state := unit;
  new_codec := fun _ => tt;
  video_encode := fun _ f =>
    match f with
    | Some fr =>
        ([mkPacket None [] (vf_pts fr) (vf_pts fr) 0 None;
          mkPacket None [] (vf_pts fr) (vf_pts fr) 0 None], tt)
    | None => ([], tt)
    end;
  audio_encode := fun f => [mkPacket None [] None None (af_samples f) None];
  add_audio_stream := fun template => template;
  packet_bool := fun _ => true;
  Video_pts := fun _ => None;
  timestamps_location := fun _ => "world_timestamps"%string;
  extension := fun _ => ".mp4"%string;
  cpu_count := 4
|}.

(** What [write_video_frame] fixes with the first frame: the size of the
    video stream and that the writer is configured. *)
Definition stream_size {L : Libav} (w : AV_Writer) : option Z * option Z :=
  (vs_height (video_stream w), vs_width (video_stream w)).

Definition known_format (fmt : string) : bool :=
  one_of fmt ["npy"; "csv"; "all"]%string.

(** The csv export finds a readable video whose number of pts differs from
    the number of ledger entries. *)
Definition csv_rows_mismatch {L : Libav} (w : AV_Writer) (fmt : string) : Prop :=
  one_of fmt ["csv"; "all"]%string = true
  /\ exists video_pts,
       Video_pts (output_file_path w) = Some video_pts
       /\ List.length (timestamps w) <> List.length video_pts.

(** A media library like [sample_libav] whose written video is readable
    and holds one packet, with pts 0. *)
Definition readable_libav : Libav := {|
  codec_state := option Z;
  new_codec := fun _ => None;
  video_encode := delayed_video_encode;
  audio_encode := fun f => [mkPacket None [] None None (af_samples f) None];
  add_audio_stream := fun template => template;
  packet_bool := fun _ => true;
  Video_pts := fun _ => Some [0];
  timestamps_location := fun _ => "world_timestamps"%string;
  extension := fun _ => ".mp4"%string;
  cpu_count := 4
|}.

(** The exception that stops [_generate_silence_packets] before its loop,
    if any: the look-up of the sample format comes first, then the
    division by the frame size. *)
Definition silence_fails (stream : AudioStream) : option exn :=
  match AudioPacketIterator.lookup (format_name stream)
          AudioPacketIterator._format_dtypes with
  | None => Some KeyError
  | Some _ => if frame_size stream =? 0 then Some ZeroDivisionError else None
  end.

(** A part whose decoding gives no frame. *)
Definition empty_part : AudioPart := mkAudioPart [] [] sample_audio_stream.

(** The inner generator [iterate_audio_packets] loops over. *)
Definition packet_with_ts_iterator {L : Libav} (self : AudioPacketIterator.t)
    : gen (Packet * Q) :=
  if AudioPacketIterator.fill_gaps self
  then AudioPacketIterator._iterate_audio_packets_filling_gaps self
         (AudioPacketIterator.audio_parts self)
  else AudioPacketIterator._iterate_audio_packets
         (AudioPacketIterator.audio_parts self).

(** The audio packets handed to [container.mux], in order. *)
Definition is_audio (packet : Packet) : bool :=
  stream_is (stream packet) (Some audio_stream_id).

Definition audio_muxed (es : list effect) : list Packet :=
  List.filter is_audio (muxed_packets es).

(** The audio packets the writer's iterator has still to yield. *)
Definition remaining_audio {L : Libav} (w : AV_Writer) : list Packet :=
  match audio_packet_iterator w with
  | Some it => yielded it
  | None => []
  end.

(** The assumption noted in [write_video_frame] ("each frame is encoded
    into a single packet", needed for [frame.pts == packet.pts]), along a
    run: at every call on an open writer, [encode_frame] ends without
    raising and yields exactly one video packet, which carries the pts
    given to the frame. *)
Fixpoint one_packet_per_frame {L : Libav} (w : AV_Writer) (frames : list Frame)
    : Prop :=
  match frames with
  | [] => True
  | f :: frames' =>
      (closed w = false ->
       let w1 := configure w f in
       let packets := fst (encode_frame w1 f (next_pts w1 f)) in
       List.map pts (List.filter is_video (yielded packets))
       = [Some (next_pts w1 f)]
       /\ forall e, ending packets <> Raise e)
      /\ one_packet_per_frame (fst (write_video_frame w f)) frames'
  end.

(** ** What gap filling is to yield *)

Section GapSpec.
Context {L : Libav}.

(** The packets the audio encoder gives for the silent frames of a gap of
    [d] from [start_ts], each with the timestamp of its frame. *)
Definition silence_packets (stream : AudioStream) (start_ts d : Q)
    : list (Packet * Q) :=
  List.flat_map (fun ft : AudioFrame * Q =>
      List.map (fun packet => (packet, snd ft))
        (List.filter packet_bool (audio_encode (fst ft))))
    (AudioPacketIterator.silence_frames stream
       (AudioPacketIterator.silence_sample_count stream d)
       (range (AudioPacketIterator.silence_frame_count stream d)) start_ts).

(** The parts that follow a packet [prev], each preceded by the silence
    for the gap from the end of the packet before it (its timestamp plus
    its duration) to the first packet of the part. Parts without packets
    are passed over; the statements below do not use it on them. *)
Fixpoint gaps_filled (stream : AudioStream) (prev : Packet * Q)
    (parts : list (list (Packet * Q))) : list (Packet * Q) :=
  match parts with
  | [] => []
  | ps :: parts' =>
      match ps with
      | [] => gaps_filled stream prev parts'
      | (q, qt) :: _ =>
          let start_ts := (snd prev + inject_Z (duration (fst prev)))%Q in
          silence_packets stream start_ts (qt - start_ts)
          ++ ps ++ gaps_filled stream (List.last ps prev) parts'
      end
  end.

End GapSpec.

Definition no_packet : Packet * Q := (mkPacket None [] None None 0 None, 0%Q).

(** A small codec: 8 samples a second, frames of 4 samples. *)
Definition small_stream : AudioStream :=
  mkAudioStream 8 4 "s16" "stereo" (1 # 8).

Definition small_frame : AudioFrame :=
  mkAudioFrame 4 "s16" "stereo" (Some 0) 8 (Decoded []).

(** A sample format libav has and [_format_dtypes] has not. *)
Definition sample_s64_stream : AudioStream :=
  mkAudioStream 48000 1024 "s64" "stereo" (1 # 48000).

(** Two parts on [small_stream]: frames at 0 and 1, and one frame at 20. *)
Definition small_part_A : AudioPart :=
  mkAudioPart [small_frame; small_frame] [0; 1]%Q small_stream.

Definition small_part_B : AudioPart :=
  mkAudioPart [small_frame] [20]%Q small_stream.

(** * Properties *)

(** ** Comparisons and rounding *)

Lemma Qltb_true (x y : Q) : Qltb x y = true <-> (x < y)%Q.
Proof.
  unfold Qltb. rewrite negb_true_iff.
  split; intro H.
  - apply Qnot_le_lt. intro Hle. apply Qle_bool_iff in Hle. congruence.
  - destruct (Qle_bool y x) eqn:E; [| reflexivity].
    apply Qle_bool_iff in E. exfalso. apply (Qlt_not_le _ _ H E).
Qed.

Lemma Qltb_false (x y : Q) : Qltb x y = false <-> (y <= x)%Q.
Proof.
  unfold Qltb. rewrite negb_false_iff. apply Qle_bool_iff.
Qed.

Lemma max_succ_gt (pts : Z) (last : last_pts) :
  match last with NegInf => True | Fin l => l < max_succ pts last end.
Proof. destruct last; simpl; [trivial | lia]. Qed.

Lemma max_succ_ge (pts : Z) (last : last_pts) : pts <= max_succ pts last.
Proof. destruct last; simpl; lia. Qed.

(** ** What the parts of [write_video_frame] leave alone *)

Section Frames.
Context {L : Libav}.

Lemma stream_encode_ledger (w : AV_Writer) (f : option VideoFrame) :
  ledger_fields (snd (stream_encode w f)) = ledger_fields w
  /\ closed (snd (stream_encode w f)) = closed w
  /\ configured (snd (stream_encode w f)) = configured w
  /\ effects (snd (stream_encode w f)) = effects w.
Proof.
  unfold stream_encode. destruct (video_encode _ _); simpl. auto.
Qed.

Lemma MPEG_encode_frame_ledger (w : AV_Writer) (f : Frame) (p : Z) :
  ledger_fields (snd (MPEG_Writer.encode_frame w f p)) = ledger_fields w
  /\ closed (snd (MPEG_Writer.encode_frame w f p)) = closed w
  /\ configured (snd (MPEG_Writer.encode_frame w f p)) = configured w
  /\ effects (snd (MPEG_Writer.encode_frame w f p)) = effects w.
Proof.
  unfold MPEG_Writer.encode_frame.
  destruct (frame w) as [fr|]; [| simpl; auto].
  destruct (MPEG_Writer.update_planes _ _) as [planes [|]]; [| simpl; auto].
  match goal with |- context [stream_encode ?a ?b] =>
    pose proof (stream_encode_ledger a b) as H;
    destruct (stream_encode a b) as [packets w1] end.
  simpl in *. exact H.
Qed.

Lemma encode_frame_ledger (w : AV_Writer) (f : Frame) (p : Z) :
  ledger_fields (snd (encode_frame w f p)) = ledger_fields w
  /\ closed (snd (encode_frame w f p)) = closed w
  /\ configured (snd (encode_frame w f p)) = configured w
  /\ effects (snd (encode_frame w f p)) = effects w.
Proof.
  unfold encode_frame. destruct (class_of w).
  - apply MPEG_encode_frame_ledger.
  - simpl. auto.
  - unfold MPEG_Audio_Writer.encode_frame.
    pose proof (MPEG_encode_frame_ledger w f p) as H.
    destruct (MPEG_Writer.encode_frame w f p) as [video w1]. simpl in H.
    destruct (ending video); try exact H.
    destruct (audio_parts w1); try exact H.
    destruct (frame w1) as [fr|]; try exact H.
    destruct (audio_export_stream w1); try exact H.
    destruct (audio_packet_iterator w1) as [it|]; try exact H.
    destruct (vf_pts fr); try exact H.
    destruct (MPEG_Audio_Writer.drain _ _ _ _). simpl. exact H.
Qed.

Lemma configure_ledger (w : AV_Writer) (f : Frame) :
  ledger_fields (configure w f) = ledger_fields w
  /\ closed (configure w f) = closed w
  /\ effects (configure w f) = effects w.
Proof.
  unfold configure. destruct (configured w); [auto |].
  unfold on_first_frame. destruct (class_of w) eqn:E; simpl; rewrite ?E; auto.
Qed.

Lemma close_ledger (w : AV_Writer) (fmt : option string) :
  ledger_fields (fst (close w fmt)) = ledger_fields w.
Proof.
  unfold close. destruct (closed w); [reflexivity |].
  destruct (configured w) eqn:C.
  - pose proof (stream_encode_ledger w None) as (H & _ & Hc & _).
    destruct (stream_encode w None) as [packets s]. simpl in *.
    rewrite Hc, C. destruct fmt as [fmt|]; simpl; [| exact H].
    destruct (write_timestamps _ _ _). exact H.
  - simpl. rewrite C. reflexivity.
Qed.

End Frames.

(** ** One call of [write_video_frame] *)

Section Step.
Context {L : Libav}.

Lemma ledger_fields_eq (w w' : AV_Writer) :
  ledger_fields w' = ledger_fields w ->
  timestamps w' = timestamps w /\ last_video_pts w' = last_video_pts w
  /\ start_time w' = start_time w /\ time_base w' = time_base w.
Proof.
  unfold ledger_fields. intro H. injection H as H1 H2 H3 H4 _ _. auto.
Qed.

Lemma encode_and_mux_spec (w w' : AV_Writer) (f : Frame) (o : outcome) :
  encode_and_mux w f = (w', o) ->
  start_time w' = start_time w /\ time_base w' = time_base w
  /\ match o with
     | Written p =>
         p = next_pts w f /\ last_video_pts w' = Fin p
         /\ timestamps w' = timestamps w ++ [timestamp f]
     | Raised _ | EncodingFailed => ledger_unchanged w w'
     | _ => False
     end.
Proof.
  unfold encode_and_mux.
  pose proof (encode_frame_ledger w f (next_pts w f)) as (H & _).
  destruct (encode_frame w f (next_pts w f)) as [packets w1]. simpl in H.
  apply ledger_fields_eq in H. destruct H as (Ht & Hl & Hs & Hb).
  destruct (mux_loop false (yielded packets)) as [es vpe].
  unfold ledger_unchanged.
  destruct (ending packets); destruct vpe; simpl; intro E;
    injection E as <- <-; simpl; rewrite ?Ht, ?Hl, ?Hs, ?Hb; auto.
Qed.

Lemma write_video_frame_spec (w w' : AV_Writer) (f : Frame) (o : outcome) :
  write_video_frame w f = (w', o) ->
  start_time w' = start_time w /\ time_base w' = time_base w
  /\ step_spec w f w' o.
Proof.
  unfold write_video_frame.
  destruct (closed w) eqn:Hc.
  { intro E. injection E as <- <-. simpl. unfold ledger_unchanged. auto. }
  pose proof (configure_ledger w f) as (H & _).
  apply ledger_fields_eq in H. destruct H as (Ht & Hl & Hs & Hb).
  destruct (Qltb (timestamp f) (start_time (configure w f))) eqn:Hsync.
  { intro E. injection E as <- <-. simpl. unfold ledger_unchanged.
    rewrite Hs in Hsync. apply Qltb_true in Hsync. auto. }
  rewrite Hs in Hsync. apply Qltb_false in Hsync.
  assert (Henc :
            (forall l, last_timestamp (timestamps w) = Some l ->
                       (l <= timestamp f)%Q) ->
            encode_and_mux (configure w f) f = (w', o) ->
            start_time w' = start_time w /\ time_base w' = time_base w
            /\ step_spec w f w' o).
  { intros Hmono E. apply encode_and_mux_spec in E. destruct E as (E1 & E2 & E3).
    rewrite Hs in E1. rewrite Hb in E2. split; [exact E1 |]. split; [exact E2 |].
    unfold next_pts in E3. rewrite Hs, Hb, Hl in E3.
    unfold step_spec, ledger_unchanged in *.
    destruct o; try contradiction; rewrite ?Ht, ?Hl in E3; try exact E3.
    destruct E3 as (? & ? & ?). auto 10. }
  rewrite Ht.
  destruct (last_timestamp (timestamps w)) as [last_ts|] eqn:Hlast;
    [| apply Henc; discriminate].
  destruct (Qltb (timestamp f) last_ts) eqn:Hmono;
    [| apply Henc; intros l [= <-]; apply Qltb_false; exact Hmono].
  unfold release.
  pose proof (close_ledger (configure w f) (Some "npy"%string)) as Hcl.
  apply ledger_fields_eq in Hcl. destruct Hcl as (Ht' & Hl' & Hs' & Hb').
  destruct (close (configure w f) (Some "npy"%string)) as [w2 [e|]];
    simpl in *; intro E; injection E as <- <-; simpl; unfold ledger_unchanged.
  - rewrite Hs', Hb', Hl', Ht', Hs, Hb, Hl, Ht. auto.
  - rewrite Hs', Hb', Hl', Ht', Hs, Hb, Hl, Ht.
    apply Qltb_true in Hmono. auto 10.
Qed.

End Step.

(** ** Runs of [write_video_frame] *)

Section Runs.
Context {L : Libav}.

Lemma last_timestamp_app (l : list Q) (x : Q) :
  last_timestamp (l ++ [x]) = Some x.
Proof.
  unfold last_timestamp. rewrite last_last. destruct l; reflexivity.
Qed.

Lemma above_trans (last : last_pts) (p q : Z) :
  above last p -> p < q -> above last q.
Proof. destruct last; simpl; [trivial | lia]. Qed.

Lemma run_start_time (frames : list Frame) (w w' : AV_Writer) (os : list outcome) :
  write_video_frames w frames = (w', os) ->
  start_time w' = start_time w /\ time_base w' = time_base w
  /\ List.length os = List.length frames.
Proof.
  revert w w' os. induction frames as [| f frames IH]; simpl; intros w w' os E.
  - injection E as <- <-. auto.
  - destruct (write_video_frame w f) as [w1 o] eqn:E1.
    destruct (write_video_frames w1 frames) as [w2 os'] eqn:E2.
    injection E as <- <-.
    apply write_video_frame_spec in E1. destruct E1 as (S1 & B1 & _).
    apply IH in E2. destruct E2 as (S2 & B2 & Len).
    simpl. rewrite S2, B2, S1, B1, Len. auto.
Qed.

Lemma run_increasing (frames : list Frame) (w w' : AV_Writer) (os : list outcome) :
  write_video_frames w frames = (w', os) ->
  StronglySorted Z.lt (assigned_pts os)
  /\ Forall (above (last_video_pts w)) (assigned_pts os).
Proof.
  revert w w' os. induction frames as [| f frames IH]; simpl; intros w w' os E.
  - injection E as <- <-. simpl. split; constructor.
  - destruct (write_video_frame w f) as [w1 o] eqn:E1.
    destruct (write_video_frames w1 frames) as [w2 os'] eqn:E2.
    injection E as <- <-.
    apply write_video_frame_spec in E1. destruct E1 as (_ & _ & Sp).
    apply IH in E2. destruct E2 as (Sorted' & Above').
    destruct o as [| | | | | p]; simpl in *; unfold ledger_unchanged in Sp;
      decompose [and] Sp; clear Sp;
      match goal with H : last_video_pts w1 = _ |- _ => rewrite H in Above' end;
      try (split; assumption).
    subst p. simpl in Above'.
    split.
    + constructor; assumption.
    + constructor; [apply max_succ_gt |].
      eapply Forall_impl; [| exact Above'].
      intros q Hq. eapply above_trans; [apply max_succ_gt | exact Hq].
Qed.

Lemma run_pts_chain (frames : list Frame) (w w' : AV_Writer) (os : list outcome) :
  write_video_frames w frames = (w', os) ->
  pts_chain (start_time w) (time_base w) (last_video_pts w)
    (List.combine frames os).
Proof.
  revert w w' os. induction frames as [| f frames IH]; simpl; intros w w' os E.
  - injection E as <- <-. exact I.
  - destruct (write_video_frame w f) as [w1 o] eqn:E1.
    destruct (write_video_frames w1 frames) as [w2 os'] eqn:E2.
    injection E as <- <-.
    apply write_video_frame_spec in E1. destruct E1 as (S1 & B1 & Sp).
    apply IH in E2. rewrite S1, B1 in E2.
    destruct o; simpl in *; unfold ledger_unchanged in Sp;
      decompose [and] Sp; clear Sp;
      match goal with H : last_video_pts w1 = _ |- _ => rewrite H in E2 end;
      try exact E2.
    split; assumption.
Qed.

Lemma run_not_rejected (frames : list Frame) (w w' : AV_Writer) (os : list outcome) :
  Forall (fun f => (start_time w <= timestamp f)%Q) frames ->
  StronglySorted Qle (List.map timestamp frames) ->
  (forall l, last_timestamp (timestamps w) = Some l ->
             Forall (fun t => (l <= t)%Q) (List.map timestamp frames)) ->
  write_video_frames w frames = (w', os) ->
  Forall (fun o => rejected_for_timestamp o = false) os.
Proof.
  revert w w' os. induction frames as [| f frames IH]; simpl;
    intros w w' os Hstart Hsorted Hlast E.
  - injection E as <- <-. constructor.
  - destruct (write_video_frame w f) as [w1 o] eqn:E1.
    destruct (write_video_frames w1 frames) as [w2 os'] eqn:E2.
    injection E as <- <-.
    apply write_video_frame_spec in E1. destruct E1 as (S1 & B1 & Sp).
    inversion Hstart as [| ? ? Hf Hstart']; subst.
    inversion Hsorted as [| ? ? Hsorted' Hhd]; subst.
    assert (Hrest : forall l, last_timestamp (timestamps w) = Some l ->
              Forall (fun t => (l <= t)%Q) (List.map timestamp frames)).
    { intros l Hl. specialize (Hlast l Hl). inversion Hlast; assumption. }
    assert (Hunch : ledger_unchanged w w1 ->
              Forall (fun o => rejected_for_timestamp o = false) os').
    { intros (_ & Ht). eapply IH; [| exact Hsorted' | | exact E2].
      - rewrite S1. exact Hstart'.
      - rewrite Ht. exact Hrest. }
    constructor.
    + destruct o; simpl in *; try reflexivity.
      * destruct Sp as (Hlt & _). exfalso. apply (Qlt_not_le _ _ Hlt Hf).
      * destruct Sp as (Hl & -> & Hlt & _). specialize (Hlast _ Hl).
        inversion Hlast as [| ? ? Hle _]; subst.
        exfalso. apply (Qlt_not_le _ _ Hlt Hle).
    + destruct o; simpl in Sp; try (apply Hunch; exact Sp);
        try (apply Hunch; apply Sp).
      destruct Sp as (_ & _ & _ & _ & _ & Ht).
      eapply IH; [| exact Hsorted' | | exact E2].
      * rewrite S1. exact Hstart'.
      * rewrite Ht. intros l Hl. rewrite last_timestamp_app in Hl.
        injection Hl as <-. exact Hhd.
Qed.

End Runs.

(** ** Closing *)

Section Closing.
Context {L : Libav}.

Lemma do_effects_nil (w : AV_Writer) : do_effects w [] = w.
Proof. destruct w. unfold do_effects. simpl. rewrite app_nil_r. reflexivity. Qed.

Lemma do_effects_app (w : AV_Writer) (a b : list effect) :
  do_effects (do_effects w a) b = do_effects w (a ++ b).
Proof. unfold do_effects. simpl. rewrite app_assoc. reflexivity. Qed.

Lemma close_closed (w : AV_Writer) (fmt : option string) :
  closed (fst (close w fmt)) = true.
Proof.
  unfold close. destruct (closed w) eqn:C; [exact C |].
  match goal with |- context [set_closed ?x true] => generalize x end.
  intro w1. destruct (configured (set_closed w1 true)); [| reflexivity].
  destruct fmt; [| reflexivity].
  destruct (write_timestamps _ _ _). reflexivity.
Qed.

Lemma close_when_closed (w : AV_Writer) (fmt : option string) :
  closed w = true ->
  close w fmt = (do_effects w [Log ClosingMultipleTimes], None).
Proof. intro C. unfold close. rewrite C. reflexivity. Qed.

Lemma close_again_when_closed (fmts : list (option string)) (w : AV_Writer) :
  closed w = true ->
  close_again w fmts =
    (do_effects w (List.repeat (Log ClosingMultipleTimes) (List.length fmts)),
     List.repeat None (List.length fmts)).
Proof.
  revert w. induction fmts as [| fmt fmts IH]; simpl; intros w C.
  - rewrite do_effects_nil. reflexivity.
  - rewrite (close_when_closed w fmt C).
    rewrite IH by exact C. rewrite do_effects_app. reflexivity.
Qed.

(** [release] never raises: "npy" is a known format and needs no look at
    the written file. *)
Lemma release_open (w : AV_Writer) :
  closed w = false -> configured w = true ->
  release w =
    (do_effects
       (set_closed
          (do_effects (snd (stream_encode w None))
             (List.map Mux (fst (stream_encode w None)) ++ [ContainerClose]))
          true)
       [NpSave (timestamps_location (output_file_path w) ++ ".npy")
          (timestamps w)],
     None).
Proof.
  intros C F. unfold release, close. rewrite C, F.
  pose proof (stream_encode_ledger w None) as (H & _ & Hconf & _).
  destruct (stream_encode w None) as [packets s]. simpl in *.
  rewrite Hconf, F. unfold ledger_fields in H.
  injection H as Ht _ _ _ _ Hp. rewrite Ht, Hp.
  unfold write_timestamps. simpl.
  rewrite do_effects_app. reflexivity.
Qed.

Lemma configure_configured (w : AV_Writer) (f : Frame) :
  configured (configure w f) = true.
Proof.
  unfold configure. destruct (configured w) eqn:C; [exact C |].
  unfold on_first_frame. destruct (class_of _); reflexivity.
Qed.

End Closing.

(** ** What [JPEG_Writer] muxes *)

Section JPEG.
Context {L : Libav}.

Lemma muxed_video_pts_app (a b : list effect) :
  muxed_video_pts (a ++ b) = muxed_video_pts a ++ muxed_video_pts b.
Proof.
  induction a as [| e a IH]; [reflexivity |].
  destruct e as [r | packet | | |]; simpl; try exact IH.
  destruct (stream_is _ _); simpl; rewrite IH; reflexivity.
Qed.

Lemma ledger_fields_class (w w' : AV_Writer) :
  ledger_fields w' = ledger_fields w -> class_of w' = class_of w.
Proof. unfold ledger_fields. intro H. injection H as _ _ _ _ H _. exact H. Qed.

(** One call on a [JPEG_Writer]: a written frame is one muxed video packet
    carrying the frame's pts; a call that returns early muxes nothing. *)
Lemma JPEG_write_video_frame (w w' : AV_Writer) (f : Frame) (o : outcome) :
  class_of w = JPEG_Writer_class ->
  write_video_frame w f = (w', o) ->
  class_of w' = JPEG_Writer_class
  /\ match o with
     | Written p =>
         muxed_video_pts (effects w') = muxed_video_pts (effects w) ++ [Some p]
     | ContainerWasClosed | SkippedBeforeSync =>
         muxed_video_pts (effects w') = muxed_video_pts (effects w)
     | NonMonotonicTimestamps _ _ => True
     | Raised _ | EncodingFailed => False
     end.
Proof.
  intros Hclass. unfold write_video_frame.
  destruct (closed w).
  { intros [= <- <-]. simpl. rewrite muxed_video_pts_app, app_nil_r. auto. }
  pose proof (configure_ledger w f) as (Hled & _ & He).
  apply ledger_fields_class in Hled. rewrite Hclass in Hled.
  destruct (Qltb _ _).
  { intros [= <- <-]. simpl. rewrite muxed_video_pts_app, app_nil_r, He. auto. }
  assert (Henc : encode_and_mux (configure w f) f = (w', o) ->
            class_of w' = JPEG_Writer_class
            /\ match o with
               | Written p =>
                   muxed_video_pts (effects w')
                   = muxed_video_pts (effects w) ++ [Some p]
               | ContainerWasClosed | SkippedBeforeSync =>
                   muxed_video_pts (effects w') = muxed_video_pts (effects w)
               | NonMonotonicTimestamps _ _ => True
               | Raised _ | EncodingFailed => False
               end).
  { unfold encode_and_mux, encode_frame. rewrite Hled. simpl.
    intros [= <- <-]. simpl. rewrite muxed_video_pts_app, He. auto. }
  destruct (last_timestamp _) as [last_ts|]; [| exact Henc].
  destruct (Qltb _ _); [| exact Henc].
  pose proof (configure_configured w f) as Hconf.
  pose proof (close_ledger (configure w f) (Some "npy"%string)) as Hcl.
  apply ledger_fields_class in Hcl. rewrite Hled in Hcl.
  unfold release in *.
  assert (Hnone : snd (close (configure w f) (Some "npy"%string)) = None).
  { unfold close. destruct (closed (configure w f)); [reflexivity |].
    rewrite Hconf.
    pose proof (stream_encode_ledger (configure w f) None) as (_ & _ & Hc & _).
    destruct (stream_encode (configure w f) None) as [packets s].
    simpl in *. rewrite Hc, Hconf. reflexivity. }
  destruct (close (configure w f) (Some "npy"%string)) as [w2 r].
  simpl in *. subst r. intros [= <- <-]. auto.
Qed.

Lemma JPEG_run_muxed_pts (frames : list Frame) (w w' : AV_Writer)
    (os : list outcome) :
  class_of w = JPEG_Writer_class ->
  write_video_frames w frames = (w', os) ->
  Forall (fun o => rejected_for_timestamp o = false) os ->
  muxed_video_pts (effects w')
  = muxed_video_pts (effects w) ++ List.map Some (assigned_pts os).
Proof.
  revert w w' os. induction frames as [| f frames IH]; simpl;
    intros w w' os Hclass E Hok.
  - injection E as <- <-. simpl. rewrite app_nil_r. reflexivity.
  - destruct (write_video_frame w f) as [w1 o] eqn:E1.
    destruct (write_video_frames w1 frames) as [w2 os'] eqn:E2.
    injection E as <- <-.
    inversion Hok as [| ? ? Ho Hok']; subst.
    destruct (JPEG_write_video_frame _ _ _ _ Hclass E1) as (Hclass1 & Hstep).
    specialize (IH _ _ _ Hclass1 E2 Hok'). rewrite IH.
    destruct o; simpl in *; try discriminate; try contradiction;
      rewrite Hstep; rewrite <- ?app_assoc; reflexivity.
Qed.

End JPEG.

(** ** What is muxed when every frame gives one packet *)

Section OnePacket.
Context {L : Libav}.

Lemma mux_loop_seen (packets : list Packet) :
  snd (mux_loop true packets) = true.
Proof.
  induction packets as [| p packets IH]; simpl; [reflexivity |].
  destruct (stream_is _ _); destruct (mux_loop true packets); exact IH.
Qed.

Lemma mux_loop_video_pts (packets : list Packet) (b : bool) :
  muxed_video_pts (fst (mux_loop b packets))
  = List.map pts (List.filter is_video packets)
  /\ (List.filter is_video packets <> [] -> snd (mux_loop b packets) = true).
Proof.
  revert b. induction packets as [| p packets IH]; intro b; simpl.
  - split; [reflexivity | intro H; contradiction H; reflexivity].
  - assert (E : is_video p = stream_is (stream p) (Some video_stream_id))
      by reflexivity.
    rewrite E. destruct (stream_is (stream p) (Some video_stream_id)) eqn:V.
    + destruct (IH true) as (IH1 & _).
      pose proof (mux_loop_seen packets) as Hseen.
      destruct (mux_loop true packets) as [es b']. simpl in *.
      rewrite muxed_video_pts_app. simpl. rewrite V, IH1.
      split; [destruct b; reflexivity | intros _; exact Hseen].
    + destruct (IH b) as (IH1 & IH2).
      destruct (mux_loop b packets) as [es b']. simpl in *.
      rewrite V. split; assumption.
Qed.

Lemma release_does_not_raise (w : AV_Writer) : snd (release w) = None.
Proof.
  unfold release, close. destruct (closed w); [reflexivity |].
  destruct (configured w) eqn:C.
  - pose proof (stream_encode_ledger w None) as (_ & _ & Hc & _).
    destruct (stream_encode w None) as [packets s]. simpl in *.
    rewrite Hc, C. reflexivity.
  - simpl. rewrite C. reflexivity.
Qed.

(** One call under the single-packet assumption: a frame that is not
    turned away for its timestamp is written, and its one video packet is
    muxed with the pts given to the frame. *)
Lemma one_packet_write_video_frame (w w' : AV_Writer) (f : Frame) (o : outcome) :
  write_video_frame w f = (w', o) ->
  rejected_for_timestamp o = false ->
  (closed w = false ->
   let w1 := configure w f in
   let packets := fst (encode_frame w1 f (next_pts w1 f)) in
   List.map pts (List.filter is_video (yielded packets)) = [Some (next_pts w1 f)]
   /\ forall e, ending packets <> Raise e) ->
  match o with
  | Written p =>
      muxed_video_pts (effects w') = muxed_video_pts (effects w) ++ [Some p]
  | ContainerWasClosed =>
      muxed_video_pts (effects w') = muxed_video_pts (effects w)
  | _ => False
  end.
Proof.
  unfold write_video_frame. destruct (closed w) eqn:C.
  { intros [= <- <-] _ _. simpl.
    rewrite muxed_video_pts_app, app_nil_r. reflexivity. }
  intros E Hrej Hone. specialize (Hone eq_refl). cbv zeta in Hone.
  destruct Hone as (Hpts & Hend).
  pose proof (configure_ledger w f) as (_ & _ & He).
  set (w1 := configure w f) in *.
  revert E. destruct (Qltb _ _).
  { intros [= <- <-]. discriminate Hrej. }
  assert (Henc : encode_and_mux w1 f = (w', o) ->
            match o with
            | Written p =>
                muxed_video_pts (effects w')
                = muxed_video_pts (effects w) ++ [Some p]
            | ContainerWasClosed =>
                muxed_video_pts (effects w') = muxed_video_pts (effects w)
            | _ => False
            end).
  { unfold encode_and_mux.
    pose proof (encode_frame_ledger w1 f (next_pts w1 f)) as (_ & _ & _ & He').
    destruct (encode_frame w1 f (next_pts w1 f)) as [g w2]. simpl in *.
    destruct (mux_loop_video_pts (yielded g) false) as (Hm & Hflag).
    destruct (mux_loop false (yielded g)) as [es vpe]. simpl in *.
    assert (Hvpe : vpe = true).
    { apply Hflag. intro Hnil. rewrite Hnil in Hpts. discriminate Hpts. }
    subst vpe. rewrite Hpts in Hm.
    destruct (ending g) as [| a s | e];
      try (exfalso; apply (Hend e); reflexivity);
      intros [= <- <-]; simpl;
      rewrite ?muxed_video_pts_app, He', He, Hm; simpl;
      rewrite ?app_nil_r; reflexivity. }
  destruct (last_timestamp _) as [last_ts|]; [| exact Henc].
  destruct (Qltb _ _); [| exact Henc].
  pose proof (release_does_not_raise w1) as Hr.
  destruct (release w1) as [w2 r]. simpl in Hr. subst r.
  intros [= <- <-]. discriminate Hrej.
Qed.

Lemma one_packet_run_muxed_pts (frames : list Frame) (w w' : AV_Writer)
    (os : list outcome) :
  write_video_frames w frames = (w', os) ->
  Forall (fun o => rejected_for_timestamp o = false) os ->
  one_packet_per_frame w frames ->
  muxed_video_pts (effects w')
  = muxed_video_pts (effects w) ++ List.map Some (assigned_pts os).
Proof.
  revert w w' os. induction frames as [| f frames IH]; simpl;
    intros w w' os E Hok Hone.
  - injection E as <- <-. simpl. rewrite app_nil_r. reflexivity.
  - destruct (write_video_frame w f) as [w1 o] eqn:E1.
    destruct (write_video_frames w1 frames) as [w2 os'] eqn:E2.
    injection E as <- <-. simpl in Hone. destruct Hone as (Hf & Hrest).
    inversion Hok as [| ? ? Ho Hok']; subst.
    pose proof (one_packet_write_video_frame _ _ _ _ E1 Ho Hf) as Hstep.
    specialize (IH _ _ _ E2 Hok' Hrest). rewrite IH.
    destruct o; simpl in *; try contradiction;
      rewrite Hstep; rewrite <- ?app_assoc; reflexivity.
Qed.

End OnePacket.

(** C1, as the code has it. For frames whose timestamps are non-decreasing
    and at least [start_time], fed to a writer with an empty ledger: no
    frame is turned away for its timestamp, the pts given to the written
    frames are strictly increasing, and each is
    [max(int((timestamp - start_time) / time_base), last_video_pts + 1)]
    with [last_video_pts] the pts of the frame written before it. When
    every frame is encoded into one video packet that carries the frame's
    pts (the assumption noted in [write_video_frame]; a [JPEG_Writer]
    always does so), these pts are the pts of the video packets that are
    muxed, one after the other. *)
Theorem written_pts_strictly_increasing {L : Libav}
    (w w' : AV_Writer) (frames : list Frame) (os : list outcome) :
  timestamps w = [] ->
  Sorted Qle (List.map timestamp frames) ->
  Forall (fun f => (start_time w <= timestamp f)%Q) frames ->
  write_video_frames w frames = (w', os) ->
  StronglySorted Z.lt (assigned_pts os)
  /\ Forall (above (last_video_pts w)) (assigned_pts os)
  /\ pts_chain (start_time w) (time_base w) (last_video_pts w)
       (List.combine frames os)
  /\ Forall (fun o => rejected_for_timestamp o = false) os
  /\ (one_packet_per_frame w frames ->
      muxed_video_pts (effects w')
      = muxed_video_pts (effects w) ++ List.map Some (assigned_pts os))
  /\ (class_of w = JPEG_Writer_class ->
      muxed_video_pts (effects w')
      = muxed_video_pts (effects w) ++ List.map Some (assigned_pts os)).
Proof.
  intros Hempty Hsorted Hstart E.
  destruct (run_increasing _ _ _ _ E) as (H1 & H2).
  assert (Hok : Forall (fun o => rejected_for_timestamp o = false) os).
  { eapply run_not_rejected; [exact Hstart | | | exact E].
    - apply Sorted_StronglySorted; [| exact Hsorted].
      intros x y z. apply Qle_trans.
    - rewrite Hempty. discriminate. }
  repeat split; try assumption.
  - eapply run_pts_chain; exact E.
  - intro Hone. eapply one_packet_run_muxed_pts; eassumption.
  - intro Hclass. eapply JPEG_run_muxed_pts; eassumption.
Qed.

Lemma written_pts_strictly_increasing_witness :
  let w := init (L:=sample_libav) JPEG_Writer_class "world.mp4" 100 in
  let frames := [frame_at (201 # 2) 0; frame_at 101 1; frame_at 101 2] in
  let w' := fst (write_video_frames w frames) in
  let os := snd (write_video_frames w frames) in
  assigned_pts os = [32767; 65535; 65536]
  /\ one_packet_per_frame w frames
  /\ StronglySorted Z.lt (assigned_pts os)
  /\ Forall (above (last_video_pts w)) (assigned_pts os)
  /\ pts_chain (start_time w) (time_base w) (last_video_pts w)
       (List.combine frames os)
  /\ Forall (fun o => rejected_for_timestamp o = false) os
  /\ (one_packet_per_frame w frames ->
      muxed_video_pts (effects w')
      = muxed_video_pts (effects w) ++ List.map Some (assigned_pts os))
  /\ (class_of w = JPEG_Writer_class ->
      muxed_video_pts (effects w')
      = muxed_video_pts (effects w) ++ List.map Some (assigned_pts os)).
Proof.
  intros w frames w' os. split; [vm_compute; reflexivity |].
  split.
  { vm_compute. repeat split; try reflexivity; intros e H; discriminate H. }
  apply (written_pts_strictly_increasing (L:=sample_libav) w w' frames os).
  - reflexivity.
  - repeat constructor; apply Qle_bool_iff; reflexivity.
  - repeat constructor; apply Qle_bool_iff; reflexivity.
  - subst w' os. destruct (write_video_frames w frames). reflexivity.
Defined.

(** C1 as stated fails: the video codec of [sample_libav] holds one frame
    back. Three frames at 101 are given to an [MPEG_Writer] started at
    100. The first yields no packet and is dropped, so [last_video_pts]
    stays at minus infinity and the second frame gets the same pts 65535;
    both reach the codec, and the two video packets that are muxed carry
    65535 and 65535. *)
Lemma muxed_pts_repeat_when_codec_holds_frames :
  let w := init (L:=sample_libav) MPEG_Writer_class "world.mp4" 100 in
  let frames := [frame_at 101 0; frame_at 101 1; frame_at 101 2] in
  let run := write_video_frames w frames in
  timestamps w = []
  /\ Sorted Qle (List.map timestamp frames)
  /\ Forall (fun f => (start_time w <= timestamp f)%Q) frames
  /\ snd run = [EncodingFailed; Written 65535; Written 65536]
  /\ muxed_video_pts (effects (fst run)) = [Some 65535; Some 65535]
  /\ ~ StronglySorted Z.lt [65535; 65535].
Proof.
  intros w frames run.
  split; [reflexivity |].
  split; [repeat constructor; apply Qle_bool_iff; reflexivity |].
  split; [repeat constructor; apply Qle_bool_iff; reflexivity |].
  split; [vm_compute; reflexivity |].
  split; [vm_compute; reflexivity |].
  intro H. inversion H as [| ? ? _ Hall]; subst.
  inversion Hall as [| ? ? Hlt _]; subst. lia.
Qed.

(** ** The timestamp ledger *)

Lemma Sorted_Qle_snoc (l : list Q) (x : Q) :
  Sorted Qle l ->
  (forall y, last_timestamp l = Some y -> (y <= x)%Q) ->
  Sorted Qle (l ++ [x]).
Proof.
  induction l as [| a l IH]; simpl; intros Hs Hlast.
  - repeat constructor.
  - inversion Hs as [| ? ? Hs' Hhd]; subst.
    constructor.
    + apply IH; [exact Hs' |].
      intros y Hy. apply Hlast. destruct l; [discriminate | exact Hy].
    + destruct l as [| b l]; simpl.
      * constructor. apply Hlast. reflexivity.
      * inversion Hhd; subst. constructor. assumption.
Qed.

(** C7, as the code has it. After any sequence of [write_video_frame]
    calls the ledger is non-decreasing: no entry is less than its
    predecessor. Equal neighbours are accepted. *)
Theorem ledger_nondecreasing {L : Libav} (w : AV_Writer) (frames : list Frame) :
  Sorted Qle (timestamps w) ->
  Sorted Qle (timestamps (fst (write_video_frames w frames))).
Proof.
  revert w. induction frames as [| f frames IH]; simpl; intros w Hs.
  - exact Hs.
  - destruct (write_video_frame w f) as [w1 o] eqn:E1.
    specialize (IH w1).
    destruct (write_video_frames w1 frames) as [w2 os']. simpl in *.
    apply IH. clear IH.
    apply write_video_frame_spec in E1. destruct E1 as (_ & _ & Sp).
    destruct o; simpl in Sp; unfold ledger_unchanged in Sp;
      decompose [and] Sp; clear Sp;
      match goal with H : timestamps w1 = _ |- _ => rewrite H end;
      try exact Hs.
    apply Sorted_Qle_snoc; assumption.
Qed.

Lemma ledger_nondecreasing_witness :
  let w := init (L:=sample_libav) JPEG_Writer_class "world.mp4" 0 in
  let frames := [frame_at 1 0; frame_at 1 1; frame_at 2 2] in
  Sorted Qle (timestamps w)
  /\ timestamps (fst (write_video_frames w frames)) = [1; 1; 2]%Q
  /\ Sorted Qle (timestamps (fst (write_video_frames w frames))).
Proof.
  intros w frames.
  split; [constructor |]. split; [reflexivity |].
  apply (ledger_nondecreasing (L:=sample_libav) w frames). constructor.
Defined.

(** C7 as stated fails: two frames with the same timestamp are both
    written, nothing is raised, and the ledger holds the timestamp twice. *)
Lemma ledger_not_strictly_increasing :
  let w := init (L:=sample_libav) JPEG_Writer_class "world.mp4" 0 in
  let run := write_video_frames w [frame_at 1 0; frame_at 1 1] in
  List.existsb raises (snd run) = false
  /\ timestamps (fst run) = [1; 1]%Q
  /\ ~ Sorted Qlt (timestamps (fst run)).
Proof.
  intros w run. split; [reflexivity |]. split; [reflexivity |].
  intro H. change (timestamps (fst run)) with [1; 1]%Q in H.
  inversion H as [| ? ? _ Hhd]; subst.
  inversion Hhd as [| ? ? Hlt]; subst.
  revert Hlt. apply Qlt_irrefl.
Qed.


(** C9. Once [close] has run, every further call only logs the warning:
    the writer is unchanged apart from that log record (no flush, no
    container close, no export) and nothing is raised. *)
Theorem close_idempotent {L : Libav} (w : AV_Writer)
    (fmt : option string) (fmts : list (option string)) :
  let w1 := fst (close w fmt) in
  closed w1 = true
  /\ close_again w1 fmts =
       (do_effects w1
          (List.repeat (Log ClosingMultipleTimes) (List.length fmts)),
        List.repeat None (List.length fmts)).
Proof.
  intro w1. split.
  - apply close_closed.
  - apply close_again_when_closed. apply close_closed.
Qed.

(** ** Frames that are turned away *)

(** C2, as the code has it. On an open writer, a frame whose timestamp is at
    least [start_time] but less than the last ledger entry makes the writer
    close the session first (the encoder is flushed and the trailing packets
    muxed after everything muxed before, the container is closed, the
    ledger is exported, [closed] is set) and then raise. The ledger and
    [last_video_pts] are as they were. *)
Theorem regressing_frame_closes_then_raises {L : Libav}
    (w : AV_Writer) (f : Frame) (last_ts : Q) :
  closed w = false ->
  last_timestamp (timestamps w) = Some last_ts ->
  (start_time w <= timestamp f)%Q ->
  (timestamp f < last_ts)%Q ->
  exists w',
    write_video_frame w f = (w', NonMonotonicTimestamps last_ts (timestamp f))
    /\ closed w' = true
    /\ effects w' =
         effects w
         ++ List.map Mux (fst (stream_encode (configure w f) None))
         ++ [ContainerClose;
             NpSave (timestamps_location (output_file_path w) ++ ".npy")
               (timestamps w)]
    /\ vs_codec (video_stream w') =
         snd (video_encode (vs_codec (video_stream (configure w f))) None)
    /\ timestamps w' = timestamps w
    /\ last_video_pts w' = last_video_pts w.
Proof.
  intros C Hlast Hstart Hlt.
  pose proof (configure_ledger w f) as (Hled & Hc & He).
  pose proof (configure_configured w f) as Hconf.
  unfold ledger_fields in Hled. injection Hled as Ht Hl Hs _ _ Hp.
  unfold write_video_frame. rewrite C, Hs, Ht, Hlast.
  apply Qltb_false in Hstart. rewrite Hstart.
  apply Qltb_true in Hlt. rewrite Hlt.
  rewrite release_open by (rewrite ?Hc; assumption).
  eexists. split; [reflexivity |].
  pose proof (stream_encode_ledger (configure w f) None) as (Hled' & _ & _ & He').
  unfold ledger_fields in Hled'. injection Hled' as Ht' Hl' _ _ _ _.
  simpl. rewrite He', He, Ht', Hl', Ht, Hl, Hp, <- !app_assoc. simpl.
  repeat split.
  unfold stream_encode. destruct (video_encode _ _). reflexivity.
Qed.

Lemma regressing_frame_closes_then_raises_witness :
  let w := fst (write_video_frames
                  (init (L:=sample_libav) MPEG_Writer_class "world.mp4" 100)
                  [frame_at 101 0; frame_at 102 1]) in
  let f := frame_at (203 # 2) 2 in
  exists w',
    write_video_frame w f = (w', NonMonotonicTimestamps 102 (203 # 2))
    /\ closed w' = true
    /\ effects w' =
         effects w
         ++ List.map Mux (fst (stream_encode (configure w f) None))
         ++ [ContainerClose; NpSave "world_timestamps.npy" (timestamps w)]
    /\ vs_codec (video_stream w') =
         snd (video_encode (vs_codec (video_stream (configure w f))) None)
    /\ timestamps w' = timestamps w
    /\ last_video_pts w' = last_video_pts w.
Proof.
  intros w f.
  apply (regressing_frame_closes_then_raises (L:=sample_libav) w f 102).
  - reflexivity.
  - reflexivity.
  - apply Qle_bool_iff. reflexivity.
  - apply Qltb_true. reflexivity.
Defined.

(** C2 as stated fails: a frame older than the last written one that is
    also older than [start_time] is skipped; nothing is closed or raised. *)
Lemma regressing_frame_before_sync_is_skipped :
  let w := fst (write_video_frames
                  (init (L:=sample_libav) JPEG_Writer_class "world.mp4" 100)
                  [frame_at (201 # 2) 0]) in
  let f := frame_at 99 1 in
  closed w = false
  /\ last_timestamp (timestamps w) = Some (201 # 2)
  /\ (timestamp f < 201 # 2)%Q
  /\ snd (write_video_frame w f) = SkippedBeforeSync
  /\ raises (snd (write_video_frame w f)) = false
  /\ closed (fst (write_video_frame w f)) = false
  /\ effects (fst (write_video_frame w f)) =
       effects w ++ [Log SkippingFrameBeforeSync].
Proof.
  intros w f. repeat split.
Qed.

Section Dropped.
Context {L : Libav}.

Lemma on_first_frame_size (w : AV_Writer) (f : Frame) :
  vs_height (video_stream (on_first_frame w f)) = vs_height (video_stream w)
  /\ vs_width (video_stream (on_first_frame w f)) = vs_width (video_stream w)
  /\ configured (on_first_frame w f) = configured w.
Proof. unfold on_first_frame. destruct (class_of w); simpl; auto. Qed.

Lemma mux_loop_no_video (packets : list Packet) (b : bool) :
  List.filter is_video packets = [] ->
  mux_loop b packets = (List.map Mux packets, b).
Proof.
  induction packets as [| p packets IH]; simpl; intro H; [reflexivity |].
  unfold is_video in H at 1.
  destruct (stream_is (stream p) (Some video_stream_id)); [discriminate |].
  rewrite IH by exact H. reflexivity.
Qed.

End Dropped.

(** C10. The first frame given to an open writer is used to configure it
    even when it is older than [start_time]: the stream gets the frame's
    height and width, [on_first_frame] runs, [configured] becomes true.
    The frame itself is skipped: nothing is muxed, and [last_video_pts] and
    the ledger stay as they were. *)
Theorem early_first_frame_still_configures {L : Libav}
    (w : AV_Writer) (f : Frame) :
  closed w = false ->
  configured w = false ->
  (timestamp f < start_time w)%Q ->
  let w1 :=
    on_first_frame
      (set_configured
         (set_video_stream w
            (set_size (video_stream w) (height f) (width f))) true) f in
  write_video_frame w f =
    (do_effects w1 [Log SkippingFrameBeforeSync], SkippedBeforeSync)
  /\ configured w1 = true
  /\ vs_height (video_stream w1) = Some (height f)
  /\ vs_width (video_stream w1) = Some (width f)
  /\ effects w1 = effects w
  /\ last_video_pts w1 = last_video_pts w
  /\ timestamps w1 = timestamps w.
Proof.
  intros C F Hlt w1.
  assert (Hcfg : configure w f = w1).
  { unfold configure. rewrite F. reflexivity. }
  pose proof (configure_ledger w f) as (Hled & _ & He).
  pose proof (configure_configured w f) as Hconf.
  rewrite Hcfg in *.
  unfold ledger_fields in Hled. injection Hled as Ht Hl Hs _ _ _.
  split.
  - unfold write_video_frame. rewrite C, Hcfg, Hs.
    apply Qltb_true in Hlt. rewrite Hlt. reflexivity.
  - destruct (on_first_frame_size
                (set_configured
                   (set_video_stream w
                      (set_size (video_stream w) (height f) (width f))) true) f)
      as (Hh & Hw & _).
    fold w1 in Hh, Hw. rewrite Hh, Hw. auto 10.
Qed.

Lemma early_first_frame_still_configures_witness :
  let w := init (L:=sample_libav) MPEG_Writer_class "world.mp4" 100 in
  let f := frame_at 99 0 in
  let w1 :=
    on_first_frame
      (set_configured
         (set_video_stream w
            (set_size (video_stream w) (height f) (width f))) true) f in
  write_video_frame w f =
    (do_effects w1 [Log SkippingFrameBeforeSync], SkippedBeforeSync)
  /\ configured w1 = true
  /\ vs_height (video_stream w1) = Some (height f)
  /\ vs_width (video_stream w1) = Some (width f)
  /\ effects w1 = effects w
  /\ last_video_pts w1 = last_video_pts w
  /\ timestamps w1 = timestamps w.
Proof.
  intros w f.
  apply (early_first_frame_still_configures (L:=sample_libav) w f).
  - reflexivity.
  - reflexivity.
  - apply Qltb_true. reflexivity.
Defined.

(** C8. When [encode_frame] ends without raising and none of its packets
    belongs to the video stream, the frame is dropped: the packets it did
    yield are muxed, the warning is logged, and [last_video_pts] and the
    ledger stay as they were. *)
Theorem frame_without_video_packet_is_dropped {L : Libav}
    (w : AV_Writer) (f : Frame) :
  closed w = false ->
  (start_time w <= timestamp f)%Q ->
  (forall l, last_timestamp (timestamps w) = Some l -> (l <= timestamp f)%Q) ->
  let w1 := configure w f in
  let packets := fst (encode_frame w1 f (next_pts w1 f)) in
  List.filter is_video (yielded packets) = [] ->
  (forall e, ending packets <> Raise e) ->
  exists w',
    write_video_frame w f = (w', EncodingFailed)
    /\ effects w' =
         effects w ++ List.map Mux (yielded packets) ++ end_log (ending packets)
         ++ [Log (EncodingFrameFailed (index f))]
    /\ last_video_pts w' = last_video_pts w
    /\ timestamps w' = timestamps w.
Proof.
  intros C Hstart Hmono w1 packets Hnone Hend.
  pose proof (configure_ledger w f) as (Hled & _ & He).
  fold w1 in Hled, He.
  unfold ledger_fields in Hled. injection Hled as Ht Hl Hs _ _ _.
  assert (Henc : exists w',
             encode_and_mux w1 f = (w', EncodingFailed)
             /\ effects w' =
                  effects w ++ List.map Mux (yielded packets)
                  ++ end_log (ending packets)
                  ++ [Log (EncodingFrameFailed (index f))]
             /\ last_video_pts w' = last_video_pts w
             /\ timestamps w' = timestamps w).
  { unfold encode_and_mux.
    pose proof (encode_frame_ledger w1 f (next_pts w1 f)) as (Hled' & _ & _ & He').
    subst packets.
    destruct (encode_frame w1 f (next_pts w1 f)) as [g w2]. simpl in *.
    unfold ledger_fields in Hled'. injection Hled' as Ht' Hl' _ _ _ _.
    rewrite (mux_loop_no_video _ _ Hnone).
    destruct (ending g) as [| a s | e]; simpl;
      try (exfalso; apply (Hend e); reflexivity);
      eexists; (split; [reflexivity |]); simpl;
      rewrite He', He, Ht', Hl', Ht, Hl, <- ?app_assoc; auto. }
  unfold write_video_frame. rewrite C. fold w1. rewrite Hs, Ht.
  apply Qltb_false in Hstart. rewrite Hstart.
  destruct (last_timestamp (timestamps w)) as [l|] eqn:Hlast; [| exact Henc].
  specialize (Hmono l eq_refl). apply Qltb_false in Hmono. rewrite Hmono.
  exact Henc.
Qed.

Lemma frame_without_video_packet_is_dropped_witness :
  let w := init (L:=sample_libav) MPEG_Writer_class "world.mp4" 100 in
  let f := frame_at 101 7 in
  exists w',
    write_video_frame w f = (w', EncodingFailed)
    /\ effects w' = effects w ++ [Log (EncodingFrameFailed 7)]
    /\ last_video_pts w' = last_video_pts w
    /\ timestamps w' = timestamps w.
Proof.
  intros w f.
  apply (frame_without_video_packet_is_dropped (L:=sample_libav) w f).
  - reflexivity.
  - apply Qle_bool_iff. reflexivity.
  - intros l H. discriminate H.
  - reflexivity.
  - intros e H. discriminate H.
Defined.

(** ** Audio: draining up to the video frame *)

Section Drain.
Context {L : Libav}.

Lemma drain_up_to_first_later (tb frame_ts : Q) (before : list Packet)
    (late : Packet) (rest : list Packet) (e : gen_end) :
  Forall (not_later_than tb frame_ts) before ->
  later_than tb frame_ts late ->
  MPEG_Audio_Writer.drain tb frame_ts (before ++ late :: rest) e =
    (gen_of_list (before ++ [late]), mkGen rest e).
Proof.
  intros Hbefore Hlate. induction Hbefore as [| a before Ha _ IH]; simpl.
  - unfold later_than in Hlate. destruct (pts late) as [q|]; [| contradiction].
    apply Qltb_true in Hlate. rewrite Hlate. reflexivity.
  - unfold not_later_than in Ha. destruct (pts a) as [q|]; [| contradiction].
    apply Qltb_false in Ha. rewrite Ha, IH. reflexivity.
Qed.

(** When no packet is later than the frame, everything left is yielded. *)
Lemma drain_all (tb frame_ts : Q) (items : list Packet) (e : gen_end) :
  Forall (not_later_than tb frame_ts) items ->
  MPEG_Audio_Writer.drain tb frame_ts items e =
    (mkGen items e, mkGen [] StopIteration).
Proof.
  intro H. induction H as [| a items Ha _ IH]; simpl; [reflexivity |].
  unfold not_later_than in Ha. destruct (pts a) as [q|]; [| contradiction].
  apply Qltb_false in Ha. rewrite Ha, IH. reflexivity.
Qed.

Lemma MPEG_encode_frame_done (w w1 : AV_Writer) (f : Frame) (p : Z)
    (video : gen Packet) :
  MPEG_Writer.encode_frame w f p = (video, w1) ->
  ending video = StopIteration ->
  (exists fr, frame w1 = Some fr /\ vf_pts fr = Some p)
  /\ audio_parts w1 = audio_parts w
  /\ audio_export_stream w1 = audio_export_stream w
  /\ audio_packet_iterator w1 = audio_packet_iterator w
  /\ time_base w1 = time_base w.
Proof.
  unfold MPEG_Writer.encode_frame.
  destruct (frame w) as [fr|];
    [| intros [= <- <-] H; discriminate H].
  destruct (MPEG_Writer.update_planes _ _) as [planes [|]];
    [| intros [= <- <-] H; discriminate H].
  unfold stream_encode. simpl. destruct (video_encode _ _) as [packets c].
  intros [= <- <-] _. simpl. eauto 10.
Qed.

End Drain.

(** C3. With audio configured, [encode_frame] yields the video packets of
    the frame first, then the packets of the audio packet iterator in their
    order up to and including the first one whose time ([pts] times the
    audio time base) is later than the frame's ([pts] times [time_base]).
    The writer's iterator is then paused at the packet after that one: its
    [audio_packet_iterator] holds exactly the packets not yet yielded, with
    the way the iterator ends, and nothing else of the writer differs from
    what the video encoding left. *)
Theorem audio_drained_up_to_first_later_packet {L : Libav}
    (w w1 : AV_Writer) (f : Frame) (p : Z) (video : gen Packet)
    (parts : list AudioPart) (astream : AudioStream) (it : gen Packet)
    (before : list Packet) (late : Packet) (rest : list Packet) :
  class_of w = MPEG_Audio_Writer_class ->
  MPEG_Writer.encode_frame w f p = (video, w1) ->
  ending video = StopIteration ->
  audio_parts w = Some parts ->
  audio_export_stream w = Some astream ->
  audio_packet_iterator w = Some it ->
  yielded it = before ++ late :: rest ->
  Forall (not_later_than (audio_time_base astream)
            (inject_Z p * time_base w)%Q) before ->
  later_than (audio_time_base astream) (inject_Z p * time_base w)%Q late ->
  encode_frame w f p =
    (mkGen (yielded video ++ before ++ [late]) StopIteration,
     set_audio_packet_iterator w1 (Some (mkGen rest (ending it))))
  /\ audio_packet_iterator (snd (encode_frame w f p))
     = Some (mkGen rest (ending it))
  /\ yielded (fst (encode_frame w f p)) = yielded video ++ before ++ [late]
  /\ ledger_fields (snd (encode_frame w f p)) = ledger_fields w1
  /\ video_stream (snd (encode_frame w f p)) = video_stream w1
  /\ frame (snd (encode_frame w f p)) = frame w1
  /\ effects (snd (encode_frame w f p)) = effects w1.
Proof.
  intros Hclass Hvideo Hend Hparts Hstream Hit Hsplit Hbefore Hlate.
  assert (Heq : encode_frame w f p =
            (mkGen (yielded video ++ before ++ [late]) StopIteration,
             set_audio_packet_iterator w1 (Some (mkGen rest (ending it))))).
  { unfold encode_frame. rewrite Hclass.
    unfold MPEG_Audio_Writer.encode_frame. rewrite Hvideo, Hend.
    destruct (MPEG_encode_frame_done _ _ _ _ _ Hvideo Hend)
      as ((fr & Hfr & Hpts) & Hp1 & Hs1 & Hi1 & Hb1).
    rewrite Hp1, Hparts, Hfr, Hs1, Hstream, Hi1, Hit, Hpts, Hb1, Hsplit.
    rewrite (drain_up_to_first_later _ _ _ _ _ _ Hbefore Hlate).
    unfold gen_then. rewrite Hend. reflexivity. }
  rewrite Heq. simpl. repeat split; reflexivity.
Qed.

Lemma audio_drained_up_to_first_later_packet_witness :
  let w := sample_audio_writer in
  let f := frame_at (1 # 20) 1 in
  let p := 3276 in
  let a := fun q => mkPacket (Some audio_stream_id) [] (Some q) (Some q) 1024 None in
  encode_frame w f p =
    (mkGen (yielded (fst (MPEG_Writer.encode_frame w f p)) ++ [a 0] ++ [a 4800])
       StopIteration,
     set_audio_packet_iterator (snd (MPEG_Writer.encode_frame w f p))
       (Some (mkGen [a 9600] StopIteration)))
  /\ audio_packet_iterator (snd (encode_frame w f p))
     = Some (mkGen [a 9600] StopIteration)
  /\ yielded (fst (encode_frame w f p))
     = yielded (fst (MPEG_Writer.encode_frame w f p)) ++ [a 0] ++ [a 4800]
  /\ ledger_fields (snd (encode_frame w f p))
     = ledger_fields (snd (MPEG_Writer.encode_frame w f p))
  /\ video_stream (snd (encode_frame w f p))
     = video_stream (snd (MPEG_Writer.encode_frame w f p))
  /\ frame (snd (encode_frame w f p))
     = frame (snd (MPEG_Writer.encode_frame w f p))
  /\ effects (snd (encode_frame w f p))
     = effects (snd (MPEG_Writer.encode_frame w f p)).
Proof.
  intros w f p a.
  apply (audio_drained_up_to_first_later_packet (L:=sample_libav) w
           (snd (MPEG_Writer.encode_frame w f p)) f p
           (fst (MPEG_Writer.encode_frame w f p))
           [sample_part 3 0 (1 # 10)] sample_audio_stream
           (mkGen [a 0; a 4800; a 9600] StopIteration)
           [a 0] (a 4800) [a 9600]).
  - reflexivity.
  - vm_compute. reflexivity.
  - vm_compute. reflexivity.
  - vm_compute. reflexivity.
  - vm_compute. reflexivity.
  - vm_compute. reflexivity.
  - reflexivity.
  - repeat constructor. vm_compute. discriminate.
  - vm_compute. reflexivity.
Defined.

(** ** Audio: packets before the start time *)

Section Seek.
Context {L : Libav}.
Import AudioPacketIterator.

(** Up to the first packet that lies before the start time every packet is
    yielded; at that packet the generator returns, and nothing after it is
    yielded. *)
Lemma pts_loop_returns_at_first_early_packet (self : t)
    (before : list (Packet * Q)) (p : Packet) (ts : Q)
    (after : list (Packet * Q)) (e : gen_end) (last : last_pts) :
  Qeq_bool (audio_time_base (audio_export_stream self)) 0 = false ->
  Forall (fun pt => (0 <= snd pt - start_time self)%Q) before ->
  (ts - start_time self < 0)%Q ->
  let g := pts_loop self last (before ++ (p, ts) :: after) e in
  List.length (yielded g) = List.length before
  /\ ending g = StopAfterSeek (ts - start_time self)%Q (start_time self).
Proof.
  intros Htb Hbefore Hts. revert last.
  induction Hbefore as [| [q qts] before Hq _ IH]; intro last; simpl.
  - rewrite Htb. apply Qltb_true in Hts. rewrite Hts. simpl. auto.
  - rewrite Htb. simpl in Hq. apply Qltb_false in Hq. rewrite Hq. simpl.
    destruct (IH (Fin (max_succ
                         (int ((qts - start_time self)
                               / audio_time_base (audio_export_stream self))%Q)
                         last))) as (H1 & H2).
    rewrite H1, H2. auto.
Qed.

End Seek.

(** C6 fails on the code. The start time is 10 and one audio part holds two
    frames, at 9 and at 11. The first lies before the start; when the
    iterator reaches it, it returns, and the packet at 11 is never
    yielded. *)
Theorem early_audio_packet_ends_the_iteration :
  let self :=
    AudioPacketIterator.mk 10 (Some [sample_part 2 9 2]) sample_audio_stream
      true in
  List.map snd
    (yielded (AudioPacketIterator._iterate_audio_packets_filling_gaps
                (L:=sample_libav) self (AudioPacketIterator.audio_parts self)))
    = [9; 11]%Q
  /\ AudioPacketIterator.iterate_audio_packets (L:=sample_libav) self
     = mkGen [] (StopAfterSeek (-1) 10).
Proof.
  intro self. split; vm_compute; reflexivity.
Qed.

(** ** Audio: filling gaps *)

Section Gaps.
Context {L : Libav}.
Import AudioPacketIterator.

Lemma gen_prepend_nil {A} (g : gen A) : gen_prepend [] g = g.
Proof. destruct g. reflexivity. Qed.

(** Real packets met while the top of the history is not the end marker
    are yielded as they are and pushed on the history. *)
Lemma fill_loop_packets (stream : AudioStream) (ps : list (Packet * Q))
    (top : history_entry) (history : list history_entry)
    (rest : list (raw_packet * Q)) :
  is_end_marker (fst top) = false ->
  fill_loop stream (top :: history) (List.map with_ts_as_raw ps ++ rest) =
    gen_prepend ps
      (fill_loop stream (List.rev (List.map history_of ps) ++ top :: history)
         rest).
Proof.
  revert top history. induction ps as [| [p ts] ps IH]; intros top history Htop.
  - simpl. rewrite gen_prepend_nil. reflexivity.
  - destruct top as [x xt]. simpl in Htop. simpl. rewrite Htop.
    rewrite IH by reflexivity. unfold gen_cons, gen_prepend. simpl.
    rewrite <- app_assoc. reflexivity.
Qed.

End Gaps.

(** C5, as the code has it. Whatever the start time, the gap-filling
    iterator begins with the packets of the first audio part, each with its
    own timestamp: the first element of the history, [(None, None)], is not
    the end marker, so no silence is generated before them. *)
Theorem first_part_is_not_preceded_by_silence {L : Libav}
    (self : AudioPacketIterator.t) (part0 : AudioPart) (parts : list AudioPart) :
  AudioPacketIterator._iterate_audio_packets_filling_gaps self
    (Some (part0 :: parts))
  = gen_prepend (AudioPacketIterator.part_packets part0)
      (AudioPacketIterator.fill_loop
         (AudioPacketIterator.audio_export_stream self)
         (List.rev (List.map history_of (AudioPacketIterator.part_packets part0))
          ++ [(None, None)])
         ((AudioPacketIterator.audio_part_end_marker, 0%Q)
            :: AudioPacketIterator._iterate_audio_packets_with_part_marker
                 (Some parts))).
Proof.
  unfold AudioPacketIterator._iterate_audio_packets_filling_gaps. simpl.
  rewrite <- app_assoc. rewrite fill_loop_packets by reflexivity.
  reflexivity.
Qed.

(** C5 as stated fails: the recording starts at 0 and the only audio part
    starts at 5. The iterator yields the packet at 5 and nothing before it,
    although silence for the 5 seconds would take packets of its own. *)
Lemma no_leading_silence_is_generated :
  let self :=
    AudioPacketIterator.mk 0 (Some [sample_part 1 5 1]) sample_audio_stream
      true in
  let first := mkPacket None [] None None 1024 None in
  AudioPacketIterator._iterate_audio_packets_filling_gaps (L:=sample_libav)
    self (AudioPacketIterator.audio_parts self)
  = gen_of_list [(first, 5%Q)]
  /\ List.map pts
       (yielded (AudioPacketIterator.iterate_audio_packets (L:=sample_libav) self))
     = [Some 240000]
  /\ yielded (AudioPacketIterator._generate_silence_packets (L:=sample_libav)
                sample_audio_stream 0 (1 # 10)) <> [].
Proof.
  intros self first. split; [vm_compute; reflexivity |].
  split; [vm_compute; reflexivity |].
  vm_compute. discriminate.
Qed.

(** ** Audio: the amount of silence *)

Section Rounding.

Lemma int_nonneg (x : Q) : (0 <= x)%Q -> int x = Qfloor x /\ 0 <= int x.
Proof.
  intro H. unfold int.
  apply Qle_bool_iff in H as Hb. rewrite Hb. split; [reflexivity |].
  change 0 with (Qfloor 0). apply Qfloor_resp_le. exact H.
Qed.

(** [round] is the floor or the floor plus one. *)
Lemma py_round_floor (x : Q) :
  py_round x = Qfloor x \/ py_round x = Qfloor x + 1.
Proof.
  unfold py_round. destruct (_ ?= _)%Q; auto. destruct (Z.even _); auto.
Qed.

(** [round] is a nearest integer. *)
Lemma py_round_nearest (x : Q) :
  (inject_Z (py_round x) - (1 # 2) <= x)%Q
  /\ (x <= inject_Z (py_round x) + (1 # 2))%Q.
Proof.
  pose proof (Qfloor_le x) as Hlo. pose proof (Qlt_floor x) as Hhi.
  rewrite inject_Z_plus in Hhi.
  unfold py_round.
  destruct (x - inject_Z (Qfloor x) ?= 1 # 2)%Q eqn:E.
  - apply Qeq_alt in E.
    destruct (Z.even (Qfloor x)); rewrite ?inject_Z_plus;
      change (inject_Z 1) with 1%Q in *; split; lra.
  - apply Qlt_alt in E. change (inject_Z 1) with 1%Q in *. split; lra.
  - apply Qgt_alt in E. rewrite inject_Z_plus.
    change (inject_Z 1) with 1%Q in *. split; lra.
Qed.

Lemma ceil_div_bounds (n fs : Z) :
  0 < fs ->
  let k := ceil (inject_Z n / inject_Z fs)%Q in
  (k - 1) * fs < n /\ n <= k * fs.
Proof.
  intros Hfs k.
  assert (Hpos : (0 < inject_Z fs)%Q).
  { change 0%Q with (inject_Z 0). rewrite <- Zlt_Qlt. exact Hfs. }
  assert (Hx : (inject_Z n / inject_Z fs * inject_Z fs == inject_Z n)%Q).
  { field. intro H. rewrite H in Hpos. revert Hpos. apply Qlt_irrefl. }
  pose proof (Qle_ceiling (inject_Z n / inject_Z fs)) as Hle.
  pose proof (Qceiling_lt (inject_Z n / inject_Z fs)) as Hlt.
  fold (ceil (inject_Z n / inject_Z fs)) in Hle, Hlt. fold k in Hle, Hlt.
  split.
  - apply (Qmult_lt_compat_r _ _ _ Hpos) in Hlt.
    rewrite Hx, <- inject_Z_mult, <- Zlt_Qlt in Hlt. exact Hlt.
  - apply (Qmult_le_compat_r _ _ (inject_Z fs)) in Hle;
      [| apply Qlt_le_weak; exact Hpos].
    rewrite Hx, <- inject_Z_mult, <- Zle_Qle in Hle. exact Hle.
Qed.

Lemma total_repeat (fs r : Z) (m : nat) :
  total (List.repeat fs m ++ [r]) = Z.of_nat m * fs + r.
Proof.
  unfold total. induction m as [| m IH]; [simpl; lia |].
  cbn [List.repeat List.app List.fold_right]. rewrite IH. lia.
Qed.

(** The sizes [min(sample_count - frame_idx * frame_size, frame_size)] over
    consecutive indices ending in the last, short one. *)
Lemma sizes_full_then_rest (n fs : Z) (m a : nat) :
  0 < fs ->
  Z.of_nat (a + m) * fs < n ->
  n <= (Z.of_nat (a + m) + 1) * fs ->
  List.map (fun i => Z.min (n - i * fs) fs)
    (List.map Z.of_nat (List.seq a (S m)))
  = List.repeat fs m ++ [n - Z.of_nat (a + m) * fs].
Proof.
  intro Hfs. revert a. induction m as [| m IH]; intros a Hlo Hhi.
  - simpl. rewrite Nat.add_0_r in *. f_equal. lia.
  - change (List.seq a (S (S m))) with (a :: List.seq (S a) (S m)).
    cbn [List.map List.repeat List.app].
    rewrite IH by (rewrite Nat.add_succ_l, <- Nat.add_succ_r; assumption).
    rewrite Nat.add_succ_l, <- Nat.add_succ_r.
    f_equal. nia.
Qed.

End Rounding.

Section Silence.
Context {L : Libav}.
Import AudioPacketIterator.

Lemma no_silent_frame_at_rate_zero (stream : AudioStream) (d : Q) :
  sample_rate stream = 0 ->
  range (silence_frame_count stream d) = [].
Proof.
  intro H. unfold silence_frame_count, silence_sample_count. rewrite H.
  replace (int (inject_Z 0 * d)%Q) with 0
    by (destruct d as [dn dd]; reflexivity).
  destruct (frame_size stream); reflexivity.
Qed.

Lemma frame_sizes_silence_frames (stream : AudioStream) (n : Z)
    (idxs : list Z) (ts : Q) :
  frame_sizes (silence_frames stream n idxs ts)
  = List.map (fun i => Z.min (n - i * frame_size stream) (frame_size stream))
      idxs.
Proof.
  revert ts. induction idxs as [| i idxs IH]; intro ts; [reflexivity |].
  simpl. unfold frame_sizes in IH. rewrite IH. reflexivity.
Qed.

(** The sizes of the silent frames generated for a duration [d > 0]:
    nothing, or full frames followed by one frame of 1 to [frame_size]
    samples; in all [int(sample_rate * d)] samples. *)
Lemma silence_frame_sizes (stream : AudioStream) (start_ts d : Q) :
  0 < frame_size stream ->
  0 <= sample_rate stream ->
  (0 < d)%Q ->
  let n := silence_sample_count stream d in
  let sizes :=
    frame_sizes
      (silence_frames stream n (range (silence_frame_count stream d)) start_ts) in
  n = Qfloor (inject_Z (sample_rate stream) * d)%Q
  /\ ((n = 0 /\ sizes = [])
      \/ exists (m : nat) (r : Z),
           0 < r <= frame_size stream
           /\ sizes = List.repeat (frame_size stream) m ++ [r]
           /\ Z.of_nat m * frame_size stream + r = n).
Proof.
  intros Hfs Hrate Hd n sizes.
  assert (Hx : (0 <= inject_Z (sample_rate stream) * d)%Q).
  { apply Qmult_le_0_compat; [| apply Qlt_le_weak; exact Hd].
    change 0%Q with (inject_Z 0). rewrite <- Zle_Qle. exact Hrate. }
  destruct (int_nonneg _ Hx) as (Hint & Hn).
  fold (silence_sample_count stream d) in Hint, Hn. fold n in Hint, Hn.
  split; [exact Hint |].
  subst sizes. rewrite frame_sizes_silence_frames.
  unfold silence_frame_count. fold n.
  pose proof (ceil_div_bounds n (frame_size stream) Hfs) as (Hlo & Hhi).
  set (k := ceil (inject_Z n / inject_Z (frame_size stream))%Q) in *.
  clearbody k. clear Hint. clearbody n.
  destruct (Z.eq_dec n 0) as [Hz | Hnz].
  - left. split; [exact Hz |].
    assert (k = 0) by nia. rewrite H. reflexivity.
  - right. assert (Hk : 1 <= k) by nia.
    exists (Z.to_nat (k - 1)), (n - (k - 1) * frame_size stream).
    split; [nia |]. split; [| rewrite Z2Nat.id by lia; ring].
    unfold range. replace (Z.to_nat k) with (S (Z.to_nat (k - 1))) by lia.
    rewrite sizes_full_then_rest; try assumption; simpl Nat.add;
      rewrite ?Z2Nat.id by lia; try lia.
    reflexivity.
Qed.

End Silence.

(** * Further properties of the writer *)

Section WriterExtras.
Context {L : Libav}.

Lemma encode_and_mux_closed (w w' : AV_Writer) (f : Frame) (o : outcome) :
  encode_and_mux w f = (w', o) ->
  closed w' = closed w
  /\ (forall l t, o <> NonMonotonicTimestamps l t)
  /\ o <> ContainerWasClosed /\ o <> SkippedBeforeSync.
Proof.
  unfold encode_and_mux.
  pose proof (encode_frame_ledger w f (next_pts w f)) as (_ & Hc & _).
  destruct (encode_frame w f (next_pts w f)) as [packets w1]. simpl in Hc.
  destruct (mux_loop false (yielded packets)) as [es vpe].
  destruct (ending packets); destruct vpe; simpl; intros [= <- <-]; simpl;
    (split; [exact Hc |]); repeat split; intros; discriminate.
Qed.

Lemma release_never_raises_open (w : AV_Writer) :
  snd (release w) = None.
Proof.
  unfold release, close. destruct (closed w); [reflexivity |].
  destruct (configured w) eqn:C.
  - pose proof (stream_encode_ledger w None) as (_ & _ & Hc & _).
    destruct (stream_encode w None) as [packets s]. simpl in *.
    rewrite Hc, C. reflexivity.
  - simpl. rewrite C. reflexivity.
Qed.

End WriterExtras.

(** X1. Frames given to a closed writer are ignored: each call only logs
    the warning and returns; nothing else of the writer changes. *)
Theorem frames_after_close_only_warn {L : Libav}
    (w : AV_Writer) (frames : list Frame) :
  closed w = true ->
  write_video_frames w frames =
    (do_effects w
       (List.repeat (Log ContainerClosedAlready) (List.length frames)),
     List.repeat ContainerWasClosed (List.length frames)).
Proof.
  revert w. induction frames as [| f frames IH]; simpl; intros w C.
  - rewrite do_effects_nil. reflexivity.
  - unfold write_video_frame at 1. rewrite C.
    rewrite IH by exact C. rewrite do_effects_app. reflexivity.
Qed.

Lemma frames_after_close_only_warn_witness :
  let w := fst (close (init (L:=sample_libav) JPEG_Writer_class "world.mp4" 0)
                  (Some "npy"%string)) in
  let frames := [frame_at 1 0; frame_at 2 1] in
  write_video_frames w frames =
    (do_effects w [Log ContainerClosedAlready; Log ContainerClosedAlready],
     [ContainerWasClosed; ContainerWasClosed]).
Proof.
  intros w frames.
  apply (frames_after_close_only_warn (L:=sample_libav) w frames).
  reflexivity.
Defined.

(** X2. [write_video_frame] never reopens a writer, and it closes an open
    one exactly when it raises for a non-monotonic timestamp: a skipped
    frame, a frame that failed to encode and an exception of the encoder
    all leave the writer open. *)
Theorem closed_only_by_regression {L : Libav}
    (w w' : AV_Writer) (f : Frame) (o : outcome) :
  write_video_frame w f = (w', o) ->
  (closed w = true -> closed w' = true /\ o = ContainerWasClosed)
  /\ (closed w = false ->
      (closed w' = true <-> exists l t, o = NonMonotonicTimestamps l t)).
Proof.
  unfold write_video_frame. destruct (closed w) eqn:C.
  { intros [= <- <-]. simpl. split; [auto | discriminate]. }
  intro E. split; [discriminate |]. intros _.
  pose proof (configure_ledger w f) as (_ & Hc & _). rewrite C in Hc.
  revert E. destruct (Qltb _ _).
  { intros [= <- <-]. simpl. rewrite Hc.
    split; [discriminate | intros (l & t & H); discriminate]. }
  assert (Henc : encode_and_mux (configure w f) f = (w', o) ->
            (closed w' = true <-> exists l t, o = NonMonotonicTimestamps l t)).
  { intro E. apply encode_and_mux_closed in E.
    destruct E as (Hc' & Hno & _). rewrite Hc', Hc.
    split; [discriminate | intros (l & t & H); exfalso; exact (Hno l t H)]. }
  destruct (last_timestamp _) as [last_ts|]; [| exact Henc].
  destruct (Qltb _ _); [| exact Henc].
  pose proof (release_never_raises_open (configure w f)) as Hr.
  pose proof (close_closed (configure w f) (Some "npy"%string)) as Hcl.
  unfold release in *.
  destruct (close (configure w f) (Some "npy"%string)) as [w2 r].
  simpl in *. subst r. intros [= <- <-].
  split; [eauto | intros _; exact Hcl].
Qed.

Lemma closed_only_by_regression_witness :
  let w := fst (write_video_frames
                  (init (L:=sample_libav) MPEG_Writer_class "world.mp4" 100)
                  [frame_at 101 0; frame_at 102 1]) in
  (closed (fst (write_video_frame w (frame_at 99 2))) = true
   <-> exists l t,
         snd (write_video_frame w (frame_at 99 2)) = NonMonotonicTimestamps l t)
  /\ (closed (fst (write_video_frame w (frame_at (203 # 2) 2))) = true
      <-> exists l t,
            snd (write_video_frame w (frame_at (203 # 2) 2))
            = NonMonotonicTimestamps l t).
Proof.
  intro w. split.
  - apply (closed_only_by_regression (L:=sample_libav) w
             (fst (write_video_frame w (frame_at 99 2))) (frame_at 99 2)
             (snd (write_video_frame w (frame_at 99 2)))).
    + destruct (write_video_frame w (frame_at 99 2)). reflexivity.
    + vm_compute. reflexivity.
  - apply (closed_only_by_regression (L:=sample_libav) w
             (fst (write_video_frame w (frame_at (203 # 2) 2)))
             (frame_at (203 # 2) 2)
             (snd (write_video_frame w (frame_at (203 # 2) 2)))).
    + destruct (write_video_frame w (frame_at (203 # 2) 2)). reflexivity.
    + vm_compute. reflexivity.
Defined.

(** X3. The ledger grows by exactly the timestamps of the frames that were
    written, in call order: one entry per written frame, none for a frame
    that was skipped, rejected or failed to encode. *)
Theorem ledger_is_written_timestamps {L : Libav}
    (w : AV_Writer) (frames : list Frame) :
  let w' := fst (write_video_frames w frames) in
  let os := snd (write_video_frames w frames) in
  timestamps w' = timestamps w ++ written_timestamps (List.combine frames os)
  /\ List.length (timestamps w')
     = (List.length (timestamps w) + List.length (assigned_pts os))%nat.
Proof.
  revert w. induction frames as [| f frames IH]; simpl; intro w.
  - rewrite app_nil_r. auto.
  - destruct (write_video_frame w f) as [w1 o] eqn:E1.
    specialize (IH w1).
    destruct (write_video_frames w1 frames) as [w2 os']. simpl in *.
    destruct IH as (IH1 & IH2). rewrite IH2, IH1. clear IH1 IH2.
    apply write_video_frame_spec in E1. destruct E1 as (_ & _ & Sp).
    destruct o; simpl in *; unfold ledger_unchanged in Sp;
      decompose [and] Sp; clear Sp;
      match goal with H : timestamps w1 = _ |- _ => rewrite H end;
      rewrite <- ?app_assoc, ?length_app; simpl; split; auto; lia.
Qed.

(** X4. No ledger entry lies before the start time: if that holds of the
    ledger, it holds after any sequence of calls. *)
Theorem ledger_not_before_start {L : Libav}
    (w : AV_Writer) (frames : list Frame) :
  Forall (fun t => (start_time w <= t)%Q) (timestamps w) ->
  Forall (fun t => (start_time w <= t)%Q)
    (timestamps (fst (write_video_frames w frames))).
Proof.
  revert w. induction frames as [| f frames IH]; simpl; intros w H.
  - exact H.
  - destruct (write_video_frame w f) as [w1 o] eqn:E1.
    specialize (IH w1).
    destruct (write_video_frames w1 frames) as [w2 os']. simpl in *.
    apply write_video_frame_spec in E1. destruct E1 as (S1 & _ & Sp).
    rewrite S1 in IH. apply IH. clear IH.
    destruct o; simpl in *; unfold ledger_unchanged in Sp;
      decompose [and] Sp; clear Sp;
      match goal with H : timestamps w1 = _ |- _ => rewrite H end;
      try assumption.
    apply Forall_app. split; [assumption |]. constructor; [assumption | constructor].
Qed.

Lemma ledger_not_before_start_witness :
  let w := init (L:=sample_libav) JPEG_Writer_class "world.mp4" 100 in
  let frames := [frame_at 99 0; frame_at 101 1; frame_at 100 2] in
  Forall (fun t => (start_time w <= t)%Q)
    (timestamps (fst (write_video_frames w frames))).
Proof.
  intros w frames.
  apply (ledger_not_before_start (L:=sample_libav) w frames). constructor.
Defined.

Section PtsExtras.
Context {L : Libav}.

Lemma candidate_nonneg (start tb ts : Q) :
  (start <= ts)%Q -> (0 < tb)%Q -> (0 <= (ts - start) / tb)%Q.
Proof.
  intros Hs Htb. apply Qle_shift_div_l; [exact Htb |]. lra.
Qed.

Lemma run_pts_nonnegative (frames : list Frame) (w : AV_Writer) :
  (0 < time_base w)%Q ->
  Forall (fun p => 0 <= p) (assigned_pts (snd (write_video_frames w frames))).
Proof.
  revert w. induction frames as [| f frames IH]; simpl; intros w Htb.
  - constructor.
  - destruct (write_video_frame w f) as [w1 o] eqn:E1.
    specialize (IH w1).
    destruct (write_video_frames w1 frames) as [w2 os']. simpl in *.
    apply write_video_frame_spec in E1. destruct E1 as (_ & B1 & Sp).
    rewrite B1 in IH. specialize (IH Htb).
    destruct o; simpl in *; try exact IH.
    destruct Sp as (_ & Hs & _ & -> & _).
    constructor; [| exact IH].
    pose proof (candidate_nonneg _ _ _ Hs Htb) as H0.
    destruct (int_nonneg _ H0) as (_ & Hint).
    pose proof (max_succ_ge (int ((timestamp f - start_time w) / time_base w)%Q)
                  (last_video_pts w)).
    lia.
Qed.

Lemma muxed_packets_app (a b : list effect) :
  muxed_packets (a ++ b) = muxed_packets a ++ muxed_packets b.
Proof.
  induction a as [| e a IH]; [reflexivity |].
  destruct e; simpl; rewrite ?IH; reflexivity.
Qed.

Lemma mux_loop_muxes_all (packets : list Packet) (b : bool) :
  muxed_packets (fst (mux_loop b packets)) = packets.
Proof.
  revert b. induction packets as [| p packets IH]; intro b; [reflexivity |].
  simpl. destruct (stream_is _ _).
  - specialize (IH true). destruct (mux_loop true packets) as [es b'].
    simpl in *. rewrite muxed_packets_app. simpl. rewrite IH.
    destruct b; reflexivity.
  - specialize (IH b). destruct (mux_loop b packets) as [es b'].
    simpl in *. rewrite IH. reflexivity.
Qed.

Lemma count_more_than_one_app (a b : list effect) :
  count_more_than_one (a ++ b)
  = (count_more_than_one a + count_more_than_one b)%nat.
Proof.
  induction a as [| e a IH]; [reflexivity |].
  destruct e as [r | | | |]; simpl; try exact IH.
  destruct r; simpl; rewrite ?IH; reflexivity.
Qed.

Lemma mux_loop_warnings (packets : list Packet) (b : bool) :
  let k := List.length (List.filter is_video packets) in
  snd (mux_loop b packets) = (b || negb (Nat.eqb k 0))%bool
  /\ count_more_than_one (fst (mux_loop b packets))
     = if b then k else Nat.pred k.
Proof.
  revert b. induction packets as [| p packets IH]; intro b.
  - simpl. rewrite orb_false_r. destruct b; auto.
  - assert (E : is_video p = stream_is (stream p) (Some video_stream_id))
      by reflexivity.
    simpl. rewrite E.
    destruct (stream_is (stream p) (Some video_stream_id)).
    + specialize (IH true). destruct (mux_loop true packets) as [es b'].
      simpl in *. destruct IH as (-> & IH2).
      rewrite orb_true_r. split; [reflexivity |].
      rewrite count_more_than_one_app. simpl. rewrite IH2.
      destruct b; simpl; lia.
    + specialize (IH b). destruct (mux_loop b packets) as [es b'].
      simpl in *. exact IH.
Qed.

End PtsExtras.

(** X5. With a positive time base no written frame gets a negative pts. *)
Theorem assigned_pts_nonnegative {L : Libav}
    (w : AV_Writer) (frames : list Frame) :
  (0 < time_base w)%Q ->
  Forall (fun p => 0 <= p) (assigned_pts (snd (write_video_frames w frames))).
Proof. apply run_pts_nonnegative. Qed.

Lemma assigned_pts_nonnegative_witness :
  let w := init (L:=sample_libav) JPEG_Writer_class "world.mp4" 100 in
  let frames := [frame_at 99 0; frame_at 100 1; frame_at (201 # 2) 2] in
  Forall (fun p => 0 <= p) (assigned_pts (snd (write_video_frames w frames))).
Proof.
  intros w frames.
  apply (assigned_pts_nonnegative (L:=sample_libav) w frames). reflexivity.
Defined.

(** X7. Every packet [encode_frame] yields is handed to [container.mux],
    in the order yielded, whatever becomes of the frame: written, dropped
    for lack of a video packet, or cut short by an exception of the
    encoder. A call that returns early muxes nothing, and the call that
    raises for a non-monotonic timestamp muxes the packets of the flush. *)
Theorem yielded_packets_are_all_muxed {L : Libav}
    (w w' : AV_Writer) (f : Frame) (o : outcome) :
  write_video_frame w f = (w', o) ->
  let w1 := configure w f in
  let packets := yielded (fst (encode_frame w1 f (next_pts w1 f))) in
  match o with
  | Written _ | EncodingFailed | Raised _ =>
      muxed_packets (effects w') = muxed_packets (effects w) ++ packets
  | ContainerWasClosed | SkippedBeforeSync =>
      muxed_packets (effects w') = muxed_packets (effects w)
  | NonMonotonicTimestamps _ _ =>
      muxed_packets (effects w')
      = muxed_packets (effects w) ++ fst (stream_encode w1 None)
  end.
Proof.
  intros E w1 packets. revert E. unfold write_video_frame.
  destruct (closed w) eqn:C.
  { intros [= <- <-]. simpl. rewrite muxed_packets_app, app_nil_r. reflexivity. }
  fold w1.
  pose proof (configure_ledger w f) as (_ & Hc & He). fold w1 in Hc, He.
  destruct (Qltb _ _).
  { intros [= <- <-]. simpl. rewrite muxed_packets_app, app_nil_r, He.
    reflexivity. }
  assert (Henc : encode_and_mux w1 f = (w', o) ->
            match o with
            | Written _ | EncodingFailed | Raised _ =>
                muxed_packets (effects w') = muxed_packets (effects w) ++ packets
            | ContainerWasClosed | SkippedBeforeSync =>
                muxed_packets (effects w') = muxed_packets (effects w)
            | NonMonotonicTimestamps _ _ =>
                muxed_packets (effects w')
                = muxed_packets (effects w) ++ fst (stream_encode w1 None)
            end).
  { unfold encode_and_mux. subst packets.
    pose proof (encode_frame_ledger w1 f (next_pts w1 f)) as (_ & _ & _ & He').
    destruct (encode_frame w1 f (next_pts w1 f)) as [g w2]. simpl in *.
    pose proof (mux_loop_muxes_all (yielded g) false) as Hm.
    destruct (mux_loop false (yielded g)) as [es vpe]. simpl in Hm.
    destruct (ending g); destruct vpe; simpl; intros [= <- <-]; simpl;
      rewrite ?muxed_packets_app, He', He, Hm; simpl;
      rewrite ?app_nil_r; reflexivity. }
  destruct (last_timestamp _) as [last_ts|]; [| exact Henc].
  destruct (Qltb _ _); [| exact Henc].
  rewrite release_open;
    [| rewrite Hc; exact C | apply configure_configured].
  intros [= <- <-]. simpl.
  pose proof (stream_encode_ledger w1 None) as (_ & _ & _ & He').
  destruct (stream_encode w1 None) as [flushed s]. simpl in *.
  rewrite !muxed_packets_app, He', He. simpl. rewrite app_nil_r.
  rewrite ?app_nil_r. f_equal. clear.
  induction flushed as [| p ps IH]; simpl; [reflexivity |].
  rewrite IH. reflexivity.
Qed.

Lemma yielded_packets_are_all_muxed_witness :
  let w := init (L:=two_packet_libav) MPEG_Writer_class "world.mp4" 0 in
  let f := frame_at 1 0 in
  let packet := mkPacket (Some video_stream_id) [] (Some 65535) (Some 65535) 0 None in
  muxed_packets (effects (fst (write_video_frame w f))) = [packet; packet].
Proof.
  intros w f packet.
  exact (yielded_packets_are_all_muxed (L:=two_packet_libav) w
           (fst (write_video_frame w f)) f (Written 65535) eq_refl).
Defined.

(** X8. A frame whose encoding ends without an exception and yields
    [k >= 1] video packets is written once: one ledger entry, the pts
    given to the frame as the last pts, and [k - 1] warnings that a frame
    yielded more than one packet. *)
Theorem frame_with_several_packets_written_once {L : Libav}
    (w : AV_Writer) (f : Frame) :
  let g := fst (encode_frame w f (next_pts w f)) in
  let k := List.length (List.filter is_video (yielded g)) in
  (0 < k)%nat ->
  (forall e, ending g <> Raise e) ->
  snd (encode_and_mux w f) = Written (next_pts w f)
  /\ timestamps (fst (encode_and_mux w f)) = timestamps w ++ [timestamp f]
  /\ last_video_pts (fst (encode_and_mux w f)) = Fin (next_pts w f)
  /\ count_more_than_one (effects (fst (encode_and_mux w f)))
     = (count_more_than_one (effects w) + (k - 1))%nat.
Proof.
  intros g k Hk Hend. subst g k. unfold encode_and_mux.
  pose proof (encode_frame_ledger w f (next_pts w f)) as (Hled & _ & _ & He).
  destruct (encode_frame w f (next_pts w f)) as [g w1]. simpl in *.
  apply ledger_fields_eq in Hled. destruct Hled as (Ht & _).
  destruct (mux_loop_warnings (yielded g) false) as (Hb & Hcount).
  destruct (mux_loop false (yielded g)) as [es vpe]. simpl in *.
  assert (Hvpe : vpe = true).
  { rewrite Hb. destruct (List.length (List.filter is_video (yielded g)));
      [lia | reflexivity]. }
  clear Hb. subst vpe.
  destruct (ending g) as [| a s | e];
    try (exfalso; apply (Hend e); reflexivity); simpl;
    repeat split;
    rewrite ?count_more_than_one_app, ?He, ?Ht, ?Hcount; simpl;
    try reflexivity; lia.
Qed.

Lemma frame_with_several_packets_written_once_witness :
  let w := configure (init (L:=two_packet_libav) MPEG_Writer_class "world.mp4" 0)
             (frame_at 1 0) in
  let f := frame_at 1 0 in
  snd (encode_and_mux w f) = Written 65535
  /\ timestamps (fst (encode_and_mux w f)) = [1%Q]
  /\ last_video_pts (fst (encode_and_mux w f)) = Fin 65535
  /\ count_more_than_one (effects (fst (encode_and_mux w f))) = 1%nat.
Proof.
  intros w f.
  apply (frame_with_several_packets_written_once (L:=two_packet_libav) w f).
  - vm_compute. lia.
  - intros e H. discriminate H.
Defined.

(** ** Closing and exporting *)

Section CloseExtras.
Context {L : Libav}.

Lemma write_timestamps_raises (file_loc : string) (ts : list Q) (fmt : string) :
  snd (write_timestamps file_loc ts fmt) <> None <->
  (known_format fmt = false
   \/ (one_of fmt ["csv"; "all"]%string = true
       /\ exists video_pts,
            Video_pts file_loc = Some video_pts
            /\ List.length ts <> List.length video_pts)).
Proof.
  unfold write_timestamps, known_format. cbv zeta.
  destruct (one_of fmt ["npy"; "csv"; "all"]%string) eqn:K; cbn [negb snd].
  2:{ split; [auto | discriminate]. }
  destruct (one_of fmt ["csv"; "all"]%string) eqn:Csv.
  2:{ cbn [snd]. split; [intro H; exfalso; apply H; reflexivity |].
      intros [H | (H & _)]; discriminate H. }
  destruct (Video_pts file_loc) as [video_pts|] eqn:V; cbn [snd].
  2:{ split; [intro H; exfalso; apply H; reflexivity |].
      intros [H | (_ & x & H & _)]; discriminate H. }
  destruct (Nat.eqb (List.length ts) (List.length video_pts)) eqn:Len; cbn [snd].
  - apply Nat.eqb_eq in Len.
    split; [intro H; exfalso; apply H; reflexivity |].
    intros [H | (_ & x & [= <-] & Hne)]; [discriminate H | contradiction].
  - apply Nat.eqb_neq in Len. split; [| discriminate].
    intros _. right. split; [reflexivity |]. eauto.
Qed.

Lemma stream_encode_size (w : AV_Writer) (f : option VideoFrame) :
  stream_size (snd (stream_encode w f)) = stream_size w.
Proof. unfold stream_encode. destruct (video_encode _ _). reflexivity. Qed.

Lemma encode_frame_size (w : AV_Writer) (f : Frame) (p : Z) :
  stream_size (snd (encode_frame w f p)) = stream_size w.
Proof.
  assert (HM : stream_size (snd (MPEG_Writer.encode_frame w f p))
               = stream_size w).
  { unfold MPEG_Writer.encode_frame.
    destruct (frame w) as [fr|]; [| reflexivity].
    destruct (MPEG_Writer.update_planes _ _) as [planes [|]]; [| reflexivity].
    match goal with |- context [stream_encode ?a ?b] =>
      pose proof (stream_encode_size a b) as H;
      destruct (stream_encode a b) as [packets w1] end.
    exact H. }
  unfold encode_frame. destruct (class_of w); [exact HM | reflexivity |].
  unfold MPEG_Audio_Writer.encode_frame.
  destruct (MPEG_Writer.encode_frame w f p) as [video w1]. simpl in HM.
  destruct (ending video); try exact HM.
  destruct (audio_parts w1); try exact HM.
  destruct (frame w1) as [fr|]; try exact HM.
  destruct (audio_export_stream w1); try exact HM.
  destruct (audio_packet_iterator w1) as [it|]; try exact HM.
  destruct (vf_pts fr); try exact HM.
  destruct (MPEG_Audio_Writer.drain _ _ _ _). exact HM.
Qed.

Lemma close_size (w : AV_Writer) (fmt : option string) :
  stream_size (fst (close w fmt)) = stream_size w
  /\ configured (fst (close w fmt)) = configured w.
Proof.
  unfold close. destruct (closed w); [auto |].
  destruct (configured w) eqn:C.
  - pose proof (stream_encode_size w None) as Hs.
    pose proof (stream_encode_ledger w None) as (_ & _ & Hc & _).
    destruct (stream_encode w None) as [packets s]. simpl in *.
    unfold stream_size in *.
    rewrite Hc, C. rewrite C in Hc. destruct fmt as [fmt|]; simpl; [| auto].
    destruct (write_timestamps _ _ _). simpl. auto.
  - simpl. rewrite C. auto.
Qed.

Lemma configure_when_configured (w : AV_Writer) (f : Frame) :
  configured w = true -> configure w f = w.
Proof. intro C. unfold configure. rewrite C. reflexivity. Qed.

(** One call on a configured writer leaves the stream size alone. *)
Lemma write_video_frame_size (w : AV_Writer) (f : Frame) :
  configured w = true ->
  stream_size (fst (write_video_frame w f)) = stream_size w
  /\ configured (fst (write_video_frame w f)) = true.
Proof.
  intro C. unfold write_video_frame. destruct (closed w); [auto |].
  rewrite (configure_when_configured w f C).
  destruct (Qltb _ _); [auto |].
  assert (Henc : stream_size (fst (encode_and_mux w f)) = stream_size w
                 /\ configured (fst (encode_and_mux w f)) = true).
  { unfold encode_and_mux.
    pose proof (encode_frame_size w f (next_pts w f)) as Hs.
    pose proof (encode_frame_ledger w f (next_pts w f)) as (_ & _ & Hc & _).
    destruct (encode_frame w f (next_pts w f)) as [g w1]. simpl in *.
    destruct (mux_loop false (yielded g)) as [es vpe].
    rewrite C in Hc. unfold stream_size in *.
    destruct (ending g); destruct vpe; simpl; auto. }
  destruct (last_timestamp _) as [last_ts|]; [| exact Henc].
  destruct (Qltb _ _); [| exact Henc].
  unfold release.
  pose proof (close_size w (Some "npy"%string)) as (Hs & Hc).
  destruct (close w (Some "npy"%string)) as [w2 [e|]]; simpl in *;
    rewrite Hc; auto.
Qed.

Lemma run_size (frames : list Frame) (w : AV_Writer) :
  configured w = true ->
  stream_size (fst (write_video_frames w frames)) = stream_size w
  /\ configured (fst (write_video_frames w frames)) = true.
Proof.
  revert w. induction frames as [| f frames IH]; simpl; intros w C; [auto |].
  destruct (write_video_frame_size w f C) as (Hs & Hc).
  destruct (write_video_frame w f) as [w1 o]. simpl in *.
  specialize (IH w1 Hc).
  destruct (write_video_frames w1 frames) as [w2 os]. simpl in *.
  rewrite <- Hs. exact IH.
Qed.

End CloseExtras.

(** X9. Closing an open, configured writer with an export format that is
    not "npy", "csv" or "all" raises [ValueError] only after the encoder
    was flushed and the container closed; nothing is exported. The writer
    is then closed, so a later [close] with a good format only warns: the
    ledger is not exported by it either. *)
Theorem close_with_unknown_format {L : Libav}
    (w : AV_Writer) (fmt : string) (later : option string) :
  closed w = false ->
  configured w = true ->
  known_format fmt = false ->
  let w' := fst (close w (Some fmt)) in
  snd (close w (Some fmt)) = Some ValueError
  /\ closed w' = true
  /\ effects w' =
       effects w ++ List.map Mux (fst (stream_encode w None)) ++ [ContainerClose]
  /\ close w' later = (do_effects w' [Log ClosingMultipleTimes], None).
Proof.
  intros C F K w'.
  assert (Hclose : close w (Some fmt) =
            (do_effects
               (set_closed
                  (do_effects (snd (stream_encode w None))
                     (List.map Mux (fst (stream_encode w None))
                      ++ [ContainerClose])) true) [],
             Some ValueError)).
  { unfold close. rewrite C, F.
    pose proof (stream_encode_ledger w None) as (_ & _ & Hc & _).
    destruct (stream_encode w None) as [packets s]. simpl in *.
    rewrite Hc, F. unfold write_timestamps. unfold known_format in K.
    rewrite K. simpl. rewrite do_effects_app. reflexivity. }
  subst w'. rewrite Hclose. simpl.
  split; [reflexivity |]. split; [reflexivity |].
  pose proof (stream_encode_ledger w None) as (_ & _ & _ & He).
  rewrite He, app_nil_r. split; [reflexivity |].
  apply close_when_closed. reflexivity.
Qed.

Lemma close_with_unknown_format_witness :
  let w := fst (write_video_frames
                  (init (L:=sample_libav) MPEG_Writer_class "world.mp4" 0)
                  [frame_at 1 0; frame_at 2 1]) in
  let w' := fst (close w (Some "json"%string)) in
  snd (close w (Some "json"%string)) = Some ValueError
  /\ closed w' = true
  /\ effects w' =
       effects w ++ List.map Mux (fst (stream_encode w None)) ++ [ContainerClose]
  /\ close w' (Some "npy"%string)
     = (do_effects w' [Log ClosingMultipleTimes], None).
Proof.
  intro w.
  apply (close_with_unknown_format (L:=sample_libav) w "json"
           (Some "npy"%string)); reflexivity.
Defined.

(** X10. [close] on an open writer raises exactly when the writer is
    configured and the export fails: the format is unknown, or the csv
    export reads a video whose number of pts differs from the number of
    ledger entries. An unconfigured writer never raises on [close], with
    any format, and exports nothing. *)
Theorem close_raises_iff {L : Libav} (w : AV_Writer) (fmt : option string) :
  closed w = false ->
  (snd (close w fmt) <> None <->
   configured w = true
   /\ exists f, fmt = Some f
        /\ (known_format f = false \/ csv_rows_mismatch w f))
  /\ (configured w = false ->
      close w fmt = (set_closed (do_effects w [ContainerClose]) true, None)).
Proof.
  intro C. split.
  - unfold close. rewrite C. destruct (configured w) eqn:F.
    + pose proof (stream_encode_ledger w None) as (Hled & _ & Hc & _).
      destruct (stream_encode w None) as [packets s]. simpl in *.
      rewrite Hc, F.
      unfold ledger_fields in Hled. injection Hled as Ht _ _ _ _ Hp.
      rewrite Ht, Hp.
      destruct fmt as [f|]; simpl.
      * pose proof (write_timestamps_raises (output_file_path w)
                      (timestamps w) f) as Hw.
        destruct (write_timestamps _ _ _) as [es r]. simpl in *.
        rewrite Hw. unfold csv_rows_mismatch. split.
        -- intro H. split; [reflexivity |]. exists f. auto.
        -- intros (_ & f' & [= <-] & H). exact H.
      * split; [intro H; exfalso; apply H; reflexivity |].
        intros (_ & f & H & _). discriminate H.
    + simpl. rewrite F. split; [intro H; exfalso; apply H; reflexivity |].
      intros (H & _). discriminate H.
  - intro F. unfold close. rewrite C, F. simpl. rewrite F. reflexivity.
Qed.

Lemma close_raises_iff_witness :
  let w := fst (write_video_frames
                  (init (L:=readable_libav) JPEG_Writer_class "world.mp4" 0)
                  [frame_at 1 0; frame_at 2 1]) in
  (snd (close w (Some "all"%string)) <> None <->
   configured w = true
   /\ exists f, Some "all"%string = Some f
        /\ (known_format f = false \/ csv_rows_mismatch w f))
  /\ (configured w = false ->
      close w (Some "all"%string)
      = (set_closed (do_effects w [ContainerClose]) true, None)).
Proof.
  intro w.
  apply (close_raises_iff (L:=readable_libav) w (Some "all"%string)).
  reflexivity.
Defined.

(** X11. The first frame given to an open writer fixes the size of the
    video stream, also when that frame is skipped: whatever frames follow,
    of whatever size, the stream keeps the height and width of the first
    one and the writer stays configured. *)
Theorem stream_size_fixed_by_first_frame {L : Libav}
    (w : AV_Writer) (f0 : Frame) (frames : list Frame) :
  closed w = false ->
  configured w = false ->
  let w' := fst (write_video_frames w (f0 :: frames)) in
  stream_size w' = (Some (height f0), Some (width f0))
  /\ configured w' = true.
Proof.
  intros C F w'.
  assert (Hfirst : stream_size (fst (write_video_frame w f0))
                   = (Some (height f0), Some (width f0))
                   /\ configured (fst (write_video_frame w f0)) = true).
  { assert (Hcfg : stream_size (configure w f0)
                   = (Some (height f0), Some (width f0))).
    { unfold configure. rewrite F.
      match goal with |- context [on_first_frame ?a ?b] =>
        destruct (on_first_frame_size a b) as (Hh & Hw & _) end.
      unfold stream_size. rewrite Hh, Hw. reflexivity. }
    pose proof (configure_configured w f0) as Hconf.
    destruct (write_video_frame_size (configure w f0) f0 Hconf) as (Hs & Hc).
    assert (Hsame : write_video_frame w f0
                    = write_video_frame (configure w f0) f0).
    { unfold write_video_frame.
      pose proof (configure_ledger w f0) as (_ & Hcl & _).
      rewrite Hcl, C.
      rewrite (configure_when_configured (configure w f0) f0 Hconf).
      reflexivity. }
    rewrite Hsame, Hs, Hcfg. auto. }
  subst w'. simpl.
  destruct (write_video_frame w f0) as [w1 o]. simpl in Hfirst.
  destruct Hfirst as (Hs & Hc).
  destruct (run_size frames w1 Hc) as (Hs' & Hc').
  destruct (write_video_frames w1 frames) as [w2 os]. simpl in *.
  rewrite Hs', Hs. auto.
Qed.

Lemma stream_size_fixed_by_first_frame_witness :
  let w := init (L:=sample_libav) MPEG_Writer_class "world.mp4" 100 in
  let f0 := mkFrame 320 240 99 0 None ([], [], []) [] [] in
  let w' := fst (write_video_frames w [f0; frame_at 101 1; frame_at 102 2]) in
  stream_size w' = (Some 240, Some 320) /\ configured w' = true.
Proof.
  intros w f0.
  apply (stream_size_fixed_by_first_frame (L:=sample_libav) w f0
           [frame_at 101 1; frame_at 102 2]); reflexivity.
Defined.

(** X12. An open [JPEG_Writer] writes every frame that passes the two
    timestamp checks: the frame is never dropped for encoding and nothing
    is raised. Exactly one packet is muxed for it, on the video stream,
    holding the frame's jpeg buffer, with pts and dts the pts given to the
    frame. *)
Theorem JPEG_frame_is_always_written {L : Libav} (w : AV_Writer) (f : Frame) :
  class_of w = JPEG_Writer_class ->
  closed w = false ->
  (start_time w <= timestamp f)%Q ->
  (forall l, last_timestamp (timestamps w) = Some l -> (l <= timestamp f)%Q) ->
  let p := max_succ (candidate_pts (start_time w) (time_base w) f)
             (last_video_pts w) in
  snd (write_video_frame w f) = Written p
  /\ effects (fst (write_video_frame w f))
     = effects w ++ [Mux (jpeg_packet (time_base w) f p)].
Proof.
  intros Hclass C Hstart Hmono p.
  pose proof (configure_ledger w f) as (Hled & _ & He).
  pose proof (ledger_fields_class _ _ Hled) as Hcl. rewrite Hclass in Hcl.
  apply ledger_fields_eq in Hled. destruct Hled as (Ht & Hl & Hs & Hb).
  assert (Henc : snd (encode_and_mux (configure w f) f) = Written p
                 /\ effects (fst (encode_and_mux (configure w f) f))
                    = effects w ++ [Mux (jpeg_packet (time_base w) f p)]).
  { unfold encode_and_mux, encode_frame. rewrite Hcl. simpl.
    unfold next_pts. rewrite Hs, Hb, Hl, He. auto. }
  unfold write_video_frame. rewrite C, Hs, Ht.
  apply Qltb_false in Hstart. rewrite Hstart.
  destruct (last_timestamp (timestamps w)) as [l|] eqn:Hlast; [| exact Henc].
  specialize (Hmono l eq_refl). apply Qltb_false in Hmono. rewrite Hmono.
  exact Henc.
Qed.

Lemma JPEG_frame_is_always_written_witness :
  let w := init (L:=sample_libav) JPEG_Writer_class "world.mp4" 100 in
  let f := frame_at 101 0 in
  snd (write_video_frame w f) = Written 65535
  /\ effects (fst (write_video_frame w f))
     = effects w ++ [Mux (jpeg_packet (1 # 65535) f 65535)].
Proof.
  intros w f.
  apply (JPEG_frame_is_always_written (L:=sample_libav) w f).
  - reflexivity.
  - reflexivity.
  - apply Qle_bool_iff. reflexivity.
  - intros l H. discriminate H.
Defined.

(** * Further properties of the audio packet iterator *)

Section AudioExtras.
Context {L : Libav}.
Import AudioPacketIterator.

Lemma drop_markers_of_packets (ps : list (Packet * Q))
    (rest : list (raw_packet * Q)) :
  List.flat_map (fun it : raw_packet * Q =>
      match fst it with
      | Pkt packet => [(packet, snd it)]
      | audio_part_end_marker => []
      end) (List.map with_ts_as_raw ps ++ rest)
  = ps ++ List.flat_map (fun it : raw_packet * Q =>
      match fst it with
      | Pkt packet => [(packet, snd it)]
      | audio_part_end_marker => []
      end) rest.
Proof.
  induction ps as [| [p ts] ps IH]; simpl; [reflexivity |].
  rewrite IH. reflexivity.
Qed.

Lemma int_nonpos (x : Q) : (x <= 0)%Q -> int x <= 0.
Proof.
  intro H. unfold int. destruct (Qle_bool 0 x).
  - change 0 with (Qfloor 0). apply Qfloor_resp_le. exact H.
  - change 0 with (Qceiling 0). apply Qceiling_resp_le. exact H.
Qed.

Lemma pts_loop_increasing (self : t) (items : list (Packet * Q)) :
  forall (last : last_pts) (e : gen_end),
    let out := yielded (pts_loop self last items e) in
    Forall stamped_for_audio out
    /\ StronglySorted Z.lt (pts_values out)
    /\ Forall (above last) (pts_values out).
Proof.
  induction items as [| [packet raw_ts] items IH]; intros last e; simpl.
  - repeat split; constructor.
  - destruct (Qeq_bool _ 0); [simpl; repeat split; constructor |].
    destruct (Qltb _ 0); [simpl; repeat split; constructor |].
    set (p := max_succ _ last).
    destruct (IH (Fin p) e) as (H1 & H2 & H3). simpl.
    repeat split.
    + constructor; [| exact H1].
      split; [reflexivity | exists p; split; reflexivity].
    + constructor; [exact H2 | exact H3].
    + constructor; [apply max_succ_gt |].
      eapply Forall_impl; [| exact H3].
      intros q Hq. eapply above_trans; [apply max_succ_gt | exact Hq].
Qed.

Lemma pts_loop_keeps_all (self : t) (items : list (Packet * Q)) :
  Qeq_bool (audio_time_base (audio_export_stream self)) 0 = false ->
  Forall (fun pt => (start_time self <= snd pt)%Q) items ->
  forall (last : last_pts) (e : gen_end),
    let g := pts_loop self last items e in
    List.map payload (yielded g) = List.map (fun pt => payload (fst pt)) items
    /\ List.map duration (yielded g)
       = List.map (fun pt => duration (fst pt)) items
    /\ ending g = e.
Proof.
  intros Htb Hall. induction Hall as [| [packet raw_ts] items Hts _ IH];
    intros last e; simpl; [auto |].
  rewrite Htb. simpl in Hts.
  assert (Hge : Qltb (raw_ts - start_time self) 0 = false).
  { apply Qltb_false. lra. }
  rewrite Hge. simpl.
  match goal with |- context [pts_loop self ?l items e] =>
    destruct (IH l e) as (H1 & H2 & H3) end.
  rewrite H1, H2, H3. auto.
Qed.

End AudioExtras.

Section DrainExtras.
Context {L : Libav}.

Lemma drain_conserves (tb frame_ts : Q) (items : list Packet) (e : gen_end) :
  Forall (fun a => pts a <> None) items ->
  let now := fst (MPEG_Audio_Writer.drain tb frame_ts items e) in
  let left := snd (MPEG_Audio_Writer.drain tb frame_ts items e) in
  yielded now ++ yielded left = items
  /\ Forall (not_later_than tb frame_ts) (List.removelast (yielded now))
  /\ ((ending now = e /\ left = mkGen [] StopIteration
       /\ Forall (not_later_than tb frame_ts) (yielded now))
      \/ (ending now = StopIteration /\ ending left = e
          /\ exists late, List.last (yielded now) late = late
               /\ List.In late (yielded now)
               /\ later_than tb frame_ts late)).
Proof.
  intro Hpts. induction Hpts as [| a items Ha _ IH]; simpl.
  - split; [reflexivity |]. split; [constructor |]. left. auto.
  - destruct (pts a) as [q|] eqn:Eq; [| contradiction Ha; reflexivity].
    destruct (Qltb frame_ts (inject_Z q * tb)) eqn:Late; simpl.
    + split; [reflexivity |]. split; [constructor |]. right.
      split; [reflexivity |]. split; [reflexivity |].
      exists a. split; [reflexivity |]. split; [left; reflexivity |].
      unfold later_than. rewrite Eq. apply Qltb_true. exact Late.
    + assert (Hnot : not_later_than tb frame_ts a).
      { unfold not_later_than. rewrite Eq. apply Qltb_false. exact Late. }
      destruct (MPEG_Audio_Writer.drain tb frame_ts items e) as [now left].
      simpl in *. destruct IH as (Hsplit & Hfront & Hend).
      split; [rewrite Hsplit; reflexivity |].
      split.
      * destruct (yielded now) as [| b now'] eqn:En; [constructor |].
        constructor; assumption.
      * destruct Hend as [(He & Hl & Hall) | (He & Hl & late & Hlast & Hin & Hlate)].
        -- left. repeat split; try assumption. constructor; assumption.
        -- right. repeat split; try assumption.
           exists late. split; [| split; [right; exact Hin | exact Hlate]].
           destruct (yielded now) as [| b now'] eqn:En; [contradiction Hin |].
           exact Hlast.
Qed.

Lemma MPEG_encode_frame_audio_fields (w : AV_Writer) (f : Frame) (p : Z) :
  audio_parts (snd (MPEG_Writer.encode_frame w f p)) = audio_parts w.
Proof.
  unfold MPEG_Writer.encode_frame.
  destruct (frame w) as [fr|]; [| reflexivity].
  destruct (MPEG_Writer.update_planes _ _) as [planes [|]]; [| reflexivity].
  unfold stream_encode. simpl. destruct (video_encode _ _). reflexivity.
Qed.

End DrainExtras.

Section GapExtras.
Context {L : Libav}.
Import AudioPacketIterator.

Lemma silence_fails_raises (stream : AudioStream) (e : exn) (start_ts d : Q) :
  silence_fails stream = Some e ->
  _generate_silence_packets stream start_ts d = gen_raise e.
Proof.
  unfold silence_fails, _generate_silence_packets.
  destruct (lookup _ _); [| intros [= <-]; reflexivity].
  destruct (frame_size stream =? 0); [| discriminate].
  intros [= <-]. reflexivity.
Qed.

(** An end marker met while the top of the history is not an end marker is
    pushed on the history and yields nothing. *)
Lemma marker_after_packets (stream : AudioStream) (ps : list (Packet * Q))
    (top : history_entry) (history : list history_entry) (ts : Q)
    (rest : list (raw_packet * Q)) :
  is_end_marker (fst top) = false ->
  fill_loop stream (List.rev (List.map history_of ps) ++ top :: history)
    ((audio_part_end_marker, ts) :: rest)
  = fill_loop stream
      ((Some audio_part_end_marker, Some ts)
         :: List.rev (List.map history_of ps) ++ top :: history) rest.
Proof.
  intro Htop. rewrite <- map_rev.
  destruct (List.rev ps) as [| [p t] r]; simpl.
  - destruct top as [x xt]. simpl in Htop. rewrite Htop. reflexivity.
  - reflexivity.
Qed.

Lemma fill_loop_after_first_part (stream : AudioStream)
    (ps : list (Packet * Q)) (rest : list (raw_packet * Q)) :
  fill_loop stream [(None, None)]
    (List.map with_ts_as_raw ps ++ (audio_part_end_marker, 0%Q) :: rest)
  = gen_prepend ps
      (fill_loop stream
         ((Some audio_part_end_marker, Some 0%Q)
            :: List.rev (List.map history_of ps) ++ [(None, None)]) rest).
Proof.
  rewrite fill_loop_packets by reflexivity.
  rewrite marker_after_packets by reflexivity. reflexivity.
Qed.

(** At the first packet of the next part, with a packet of the previous
    part under the end marker, a failing silence generator ends the
    iteration. *)
Lemma boundary_raises (stream : AudioStream) (e : exn)
    (ps : list (Packet * Q)) (history : list history_entry)
    (marker_ts : option Q) (q : Packet) (qts : Q)
    (rest : list (raw_packet * Q)) :
  silence_fails stream = Some e ->
  ps <> [] ->
  fill_loop stream
    ((Some audio_part_end_marker, marker_ts)
       :: List.rev (List.map history_of ps) ++ history)
    ((Pkt q, qts) :: rest)
  = gen_raise e.
Proof.
  intros Hfail Hne. rewrite <- map_rev.
  destruct (List.rev ps) as [| [p t] r] eqn:E.
  - exfalso. apply Hne. rewrite <- (rev_involutive ps), E. reflexivity.
  - simpl. rewrite (silence_fails_raises _ e _ _ Hfail). reflexivity.
Qed.

End GapExtras.

(** ** Gap filling over a whole run *)

Section GapRun.
Context {L : Libav}.
Import AudioPacketIterator.

Lemma silence_runs (stream : AudioStream) (start_ts d : Q) :
  silence_fails stream = None ->
  _generate_silence_packets stream start_ts d
  = gen_of_list (silence_packets stream start_ts d).
Proof.
  unfold silence_fails, _generate_silence_packets.
  destruct (lookup _ _); [| discriminate].
  destruct (frame_size stream =? 0); [discriminate |].
  reflexivity.
Qed.

Lemma no_silence_packets_for_nonpositive (stream : AudioStream)
    (start_ts d : Q) :
  0 < frame_size stream ->
  0 <= sample_rate stream ->
  (d <= 0)%Q ->
  silence_packets stream start_ts d = [].
Proof.
  intros Hfs Hrate Hd. unfold silence_packets.
  assert (Hn : silence_sample_count stream d <= 0).
  { apply int_nonpos.
    assert (H0 : (0 <= inject_Z (sample_rate stream))%Q).
    { change 0%Q with (inject_Z 0). rewrite <- Zle_Qle. exact Hrate. }
    nra. }
  pose proof (ceil_div_bounds (silence_sample_count stream d)
                (frame_size stream) Hfs) as (Hlo & _).
  fold (silence_frame_count stream d) in Hlo.
  assert (Hk : silence_frame_count stream d <= 0) by nia.
  unfold range. replace (Z.to_nat (silence_frame_count stream d)) with O by lia.
  reflexivity.
Qed.

(** After the packets of a part the last of them is on top of the
    history. *)
Lemma last_on_top (ps : list (Packet * Q)) (x d : Packet * Q)
    (tail : list history_entry) :
  exists tail',
    List.rev (List.map history_of ps) ++ history_of x :: tail
    = history_of (List.last (x :: ps) d) :: tail'.
Proof.
  destruct ps as [| y ps] using rev_ind.
  - exists tail. reflexivity.
  - rewrite app_comm_cons, last_last, map_app, rev_app_distr.
    eexists. reflexivity.
Qed.

(** From a history with the end marker on top of the last packet of the
    part before, parts that all yield packets come out as [gaps_filled]
    has them. *)
Lemma fill_loop_parts (stream : AudioStream) :
  silence_fails stream = None ->
  forall (parts : list (list (Packet * Q))) (prev : Packet * Q)
         (tail : list history_entry) (marker_ts : option Q),
    Forall (fun ps => ps <> []) parts ->
    fill_loop stream
      ((Some audio_part_end_marker, marker_ts) :: history_of prev :: tail)
      (List.flat_map (fun ps =>
           List.map with_ts_as_raw ps ++ [(audio_part_end_marker, 0%Q)]) parts)
    = gen_of_list (gaps_filled stream prev parts).
Proof.
  intro Hok. induction parts as [| ps parts IH];
    intros prev tail marker_ts Hne; [reflexivity |].
  inversion Hne as [| ? ? Hps Hne']; subst.
  destruct ps as [| [q qt] ps']; [contradiction Hps; reflexivity |].
  cbn [List.flat_map List.map List.app gaps_filled].
  unfold with_ts_as_raw at 1. cbn [fst snd].
  rewrite <- app_assoc. cbn [List.app].
  destruct prev as [pp pt]. unfold history_of at 1. cbn [fst snd].
  cbn [fill_loop is_end_marker fst].
  rewrite (silence_runs stream _ _ Hok).
  change (Some (Pkt q), Some qt) with (history_of (q, qt)).
  rewrite (fill_loop_packets stream ps' (history_of (q, qt)) tail) by reflexivity.
  rewrite (marker_after_packets stream ps' (history_of (q, qt)) tail)
    by reflexivity.
  destruct (last_on_top ps' (q, qt) (pp, pt) tail) as (tail' & ->).
  rewrite (IH _ tail' (Some 0%Q) Hne').
  unfold gen_then, gen_of_list, yield_unless_marker, gen_cons, gen_prepend.
  simpl. reflexivity.
Qed.

(** The whole iterator when every part yields packets. *)
Lemma filling_run (self : t) (part0 : AudioPart) (parts : list AudioPart) :
  silence_fails (audio_export_stream self) = None ->
  Forall (fun part => part_packets part <> []) (part0 :: parts) ->
  _iterate_audio_packets_filling_gaps self (Some (part0 :: parts))
  = gen_of_list
      (part_packets part0
       ++ gaps_filled (audio_export_stream self)
            (List.last (part_packets part0) no_packet)
            (List.map part_packets parts)).
Proof.
  intros Hok Hne. inversion Hne as [| ? ? H0 Hne']; subst.
  unfold _iterate_audio_packets_filling_gaps.
  cbn [_iterate_audio_packets_with_part_marker List.flat_map].
  rewrite <- app_assoc. cbn [List.app].
  rewrite fill_loop_after_first_part.
  destruct (part_packets part0) as [| x ps0] eqn:E0;
    [contradiction H0; reflexivity |].
  assert (Hrev : exists tail,
            List.rev (List.map history_of (x :: ps0)) ++ [(None, None)]
            = history_of (List.last (x :: ps0) no_packet) :: tail).
  { destruct ps0 as [| y ps0] using rev_ind.
    - eexists. reflexivity.
    - rewrite app_comm_cons, last_last, map_app, rev_app_distr.
      eexists. reflexivity. }
  destruct Hrev as (tail & ->).
  assert (Hflat : List.flat_map (fun audio_part =>
                      List.map with_ts_as_raw (part_packets audio_part)
                      ++ [(audio_part_end_marker, 0%Q)]) parts
                  = List.flat_map (fun ps =>
                      List.map with_ts_as_raw ps
                      ++ [(audio_part_end_marker, 0%Q)])
                      (List.map part_packets parts)).
  { clear. induction parts as [| part parts IH]; simpl; [reflexivity |].
    rewrite IH. reflexivity. }
  rewrite Hflat.
  rewrite (fill_loop_parts _ Hok).
  - unfold gen_prepend, gen_of_list. simpl. reflexivity.
  - clear - Hne'. induction Hne'; simpl; constructor; assumption.
Qed.

End GapRun.

(** C4, as the code has it. When every audio part yields packets, the
    sample format of the export stream is in [_format_dtypes] and its
    frame size is positive, the gap-filling iterator yields the parts in
    order, each part after the first preceded by the packets of the silent
    frames for the gap from the end of the last packet before it (its
    timestamp plus its duration) to the first packet of the part. For a
    gap [d > 0] the silent frames, which are what the encoder is given,
    are frames of [frame_size] samples, only the last possibly shorter;
    together they hold [int(sample_rate * d)] samples, which is within one
    sample, so within one frame size, of [round(sample_rate * d)]. *)
Theorem silence_fills_the_gap {L : Libav}
    (self : AudioPacketIterator.t) (part0 : AudioPart) (parts : list AudioPart) :
  let stream := AudioPacketIterator.audio_export_stream self in
  AudioPacketIterator.lookup (format_name stream)
    AudioPacketIterator._format_dtypes <> None ->
  0 < frame_size stream ->
  0 <= sample_rate stream ->
  Forall (fun part => AudioPacketIterator.part_packets part <> [])
    (part0 :: parts) ->
  AudioPacketIterator._iterate_audio_packets_filling_gaps self
    (Some (part0 :: parts))
  = gen_of_list
      (AudioPacketIterator.part_packets part0
       ++ gaps_filled stream
            (List.last (AudioPacketIterator.part_packets part0) no_packet)
            (List.map AudioPacketIterator.part_packets parts))
  /\ forall (start_ts d : Q),
       (0 < d)%Q ->
       let frames :=
         AudioPacketIterator.silence_frames stream
           (AudioPacketIterator.silence_sample_count stream d)
           (range (AudioPacketIterator.silence_frame_count stream d))
           start_ts in
       silence_packets stream start_ts d
       = List.flat_map (fun ft : AudioFrame * Q =>
             List.map (fun packet => (packet, snd ft))
               (List.filter packet_bool (audio_encode (fst ft)))) frames
       /\ total (frame_sizes frames)
          = int (inject_Z (sample_rate stream) * d)%Q
       /\ Z.abs (total (frame_sizes frames)
                 - py_round (inject_Z (sample_rate stream) * d)%Q) <= 1
       /\ Z.abs (total (frame_sizes frames)
                 - py_round (inject_Z (sample_rate stream) * d)%Q)
          <= frame_size stream
       /\ Forall (fun s => s = frame_size stream)
            (List.removelast (frame_sizes frames))
       /\ Forall (fun s => 0 < s <= frame_size stream) (frame_sizes frames).
Proof.
  intros stream Hfmt Hfs Hrate Hne.
  assert (Hok : silence_fails stream = None).
  { unfold silence_fails.
    destruct (AudioPacketIterator.lookup _ _); [| contradiction Hfmt; reflexivity].
    replace (frame_size stream =? 0) with false
      by (symmetry; apply Z.eqb_neq; lia).
    reflexivity. }
  split; [apply filling_run; assumption |].
  intros start_ts d Hd frames.
  split; [reflexivity |].
  destruct (silence_frame_sizes stream start_ts d Hfs Hrate Hd)
    as (Hn & Hsizes).
  fold frames in Hsizes.
  set (n := AudioPacketIterator.silence_sample_count stream d) in *.
  assert (Htotal : total (frame_sizes frames) = n).
  { destruct Hsizes as [(Hz & ->) | (m & r & _ & -> & Hsum)].
    - rewrite Hz. reflexivity.
    - rewrite total_repeat. exact Hsum. }
  assert (Hround : Z.abs (n - py_round (inject_Z (sample_rate stream) * d)%Q) <= 1).
  { rewrite Hn.
    destruct (py_round_floor (inject_Z (sample_rate stream) * d)%Q) as [-> | ->];
      lia. }
  rewrite Htotal. repeat split; try assumption; try lia.
  - destruct Hsizes as [(_ & ->) | (m & r & _ & -> & _)]; [constructor |].
    rewrite removelast_last. apply Forall_forall. intros s Hin.
    apply repeat_spec in Hin. exact Hin.
  - destruct Hsizes as [(_ & ->) | (m & r & Hr & -> & _)]; [constructor |].
    apply Forall_app. split; [| constructor; [exact Hr | constructor]].
    apply Forall_forall. intros s Hin. apply repeat_spec in Hin. lia.
Qed.

(** X13. Without gap filling the iterator yields exactly the packets of
    the parts, part after part, each with the timestamp of its frame; the
    end markers are dropped. With no audio parts it yields nothing. *)
Theorem packets_without_gap_filling {L : Libav} (parts : list AudioPart) :
  AudioPacketIterator._iterate_audio_packets (Some parts)
  = gen_of_list (List.flat_map AudioPacketIterator.part_packets parts)
  /\ AudioPacketIterator._iterate_audio_packets None = gen_of_list [].
Proof.
  split; [| reflexivity].
  unfold AudioPacketIterator._iterate_audio_packets. f_equal. simpl.
  induction parts as [| part parts IH]; simpl; [reflexivity |].
  rewrite <- app_assoc, drop_markers_of_packets. simpl. rewrite IH.
  reflexivity.
Qed.

(** X14. With a single audio part, gap filling changes nothing: the
    iterator yields the packets of the part and no silence, whatever the
    codec and the start time. *)
Theorem single_part_needs_no_filling {L : Libav}
    (self : AudioPacketIterator.t) (part : AudioPart) :
  AudioPacketIterator._iterate_audio_packets_filling_gaps self (Some [part])
  = AudioPacketIterator._iterate_audio_packets (Some [part]).
Proof.
  unfold AudioPacketIterator._iterate_audio_packets_filling_gaps,
    AudioPacketIterator._iterate_audio_packets. simpl.
  rewrite !app_nil_r, fill_loop_after_first_part, drop_markers_of_packets.
  reflexivity.
Qed.

(** X15. If the first audio part yields no packet and another part
    follows, the gap-filling iterator raises [AttributeError] before it
    yields anything: after the first end marker only [(None, None)] is left
    on the history, and the code reads [.duration] of its [None]. *)
Theorem empty_first_part_raises {L : Libav}
    (self : AudioPacketIterator.t) (part0 part1 : AudioPart)
    (parts : list AudioPart) :
  AudioPacketIterator.part_packets part0 = [] ->
  AudioPacketIterator._iterate_audio_packets_filling_gaps self
    (Some (part0 :: part1 :: parts))
  = gen_raise AttributeError.
Proof.
  intro Hempty.
  unfold AudioPacketIterator._iterate_audio_packets_filling_gaps. simpl.
  rewrite <- app_assoc. simpl. rewrite fill_loop_after_first_part.
  rewrite Hempty. simpl.
  destruct (AudioPacketIterator.part_packets part1) as [| [q qts] ps1];
    reflexivity.
Qed.

Lemma empty_first_part_raises_witness :
  AudioPacketIterator._iterate_audio_packets_filling_gaps (L:=sample_libav)
    (AudioPacketIterator.mk 0 (Some [empty_part; sample_part 2 1 1])
       sample_audio_stream true)
    (Some [empty_part; sample_part 2 1 1])
  = gen_raise AttributeError.
Proof.
  apply (empty_first_part_raises (L:=sample_libav)). reflexivity.
Defined.

Lemma silence_fills_the_gap_witness :
  let self :=
    AudioPacketIterator.mk 0 (Some [small_part_A; small_part_B]) small_stream
      true in
  let packet := mkPacket None [] None None 4 None in
  let frames :=
    AudioPacketIterator.silence_frames small_stream
      (AudioPacketIterator.silence_sample_count small_stream 15)
      (range (AudioPacketIterator.silence_frame_count small_stream 15)) 5%Q in
  AudioPacketIterator._iterate_audio_packets_filling_gaps (L:=sample_libav)
    self (Some [small_part_A; small_part_B])
  = gen_of_list
      ([(packet, 0%Q); (packet, 1%Q)]
       ++ gaps_filled (L:=sample_libav) small_stream (packet, 1%Q)
            [[(packet, 20%Q)]])
  /\ total (frame_sizes frames) = 120
  /\ Forall (fun s => s = 4) (List.removelast (frame_sizes frames))
  /\ Forall (fun s => 0 < s <= 4) (frame_sizes frames).
Proof.
  intros self packet frames.
  assert (H1 : AudioPacketIterator.lookup
                 (format_name (AudioPacketIterator.audio_export_stream self))
                 AudioPacketIterator._format_dtypes <> None)
    by (vm_compute; discriminate).
  assert (H2 : 0 < frame_size (AudioPacketIterator.audio_export_stream self))
    by reflexivity.
  assert (H3 : 0 <= sample_rate (AudioPacketIterator.audio_export_stream self))
    by (vm_compute; discriminate).
  assert (H4 : Forall (fun part => AudioPacketIterator.part_packets
                                     (L:=sample_libav) part <> [])
                 [small_part_A; small_part_B])
    by (repeat constructor; vm_compute; discriminate).
  destruct (silence_fills_the_gap (L:=sample_libav) self small_part_A
              [small_part_B] H1 H2 H3 H4) as (Hrun & Hgap).
  split; [exact Hrun |].
  assert (H5 : (0 < 15)%Q) by reflexivity.
  destruct (Hgap 5%Q 15%Q H5) as (_ & Ht & _ & _ & Hfull & Hall).
  split; [exact Ht |]. split; [exact Hfull | exact Hall].
Defined.

(** C4 as stated fails, in three ways.
    - An audio part without packets between two others: on [small_stream]
      (8 samples a second, frames of 4) the first part ends at 1 + 4 and
      the third starts at 20, a gap of 15 seconds or 120 samples. At the
      second end marker the last packet of the first part is popped, so
      the silence is measured from the packet before it (timestamp 0,
      end 4): 128 silent samples, 8 more than 120, with a frame size
      of 4.
    - A codec with frame size 0: the division raises and no silence is
      generated for the gap.
    - A sample format that is not in [_format_dtypes]: the look-up
      raises. *)
Lemma silence_amount_off_or_none :
  let packet := mkPacket None [] None None 4 None in
  (let parts := [small_part_A; empty_part; small_part_B] in
   yielded (AudioPacketIterator._iterate_audio_packets_filling_gaps
              (L:=sample_libav)
              (AudioPacketIterator.mk 0 (Some parts) small_stream true)
              (Some parts))
   = [(packet, 0%Q); (packet, 1%Q)]
     ++ silence_packets (L:=sample_libav) small_stream 4 16
     ++ [(packet, 20%Q)]
   /\ total (List.map (fun pt => duration (fst pt))
               (silence_packets (L:=sample_libav) small_stream 4 16)) = 128
   /\ (20 - (1 + inject_Z 4) == 15)%Q
   /\ py_round (inject_Z (sample_rate small_stream) * 15)%Q = 120
   /\ frame_size small_stream < Z.abs (128 - 120))
  /\ (let parts := [sample_part 1 0 1; sample_part 1 5000 1] in
      (0 < 5000 - (0 + inject_Z 1024))%Q
      /\ AudioPacketIterator._iterate_audio_packets_filling_gaps
           (L:=sample_libav)
           (AudioPacketIterator.mk 0 (Some parts) sample_pcm_stream true)
           (Some parts)
         = mkGen [(mkPacket None [] None None 1024 None, 0%Q)]
             (Raise ZeroDivisionError)
      /\ AudioPacketIterator._iterate_audio_packets_filling_gaps
           (L:=sample_libav)
           (AudioPacketIterator.mk 0 (Some parts) sample_s64_stream true)
           (Some parts)
         = mkGen [(mkPacket None [] None None 1024 None, 0%Q)]
             (Raise KeyError)).
Proof.
  intro packet. split.
  - intro parts. split; [vm_compute; reflexivity |].
    split; [vm_compute; reflexivity |].
    split; [reflexivity |].
    split; [vm_compute; reflexivity |].
    vm_compute. reflexivity.
  - intro parts. split; [reflexivity |].
    split; vm_compute; reflexivity.
Qed.

(** X16. In a run where every audio part yields packets and silence can
    be generated (known sample format, positive frame size), a second part
    that starts at or before the end of the last packet of the first (its
    timestamp plus its duration) follows the first part directly: no
    silence packet is yielded between them. *)
Theorem no_silence_when_parts_overlap {L : Libav}
    (self : AudioPacketIterator.t) (part0 part1 : AudioPart)
    (parts : list AudioPart)
    (before : list (Packet * Q)) (prev : Packet) (prev_ts : Q)
    (curr : Packet) (curr_ts : Q) (after : list (Packet * Q)) :
  let stream := AudioPacketIterator.audio_export_stream self in
  silence_fails stream = None ->
  0 < frame_size stream ->
  0 <= sample_rate stream ->
  Forall (fun part => AudioPacketIterator.part_packets part <> [])
    (part0 :: part1 :: parts) ->
  AudioPacketIterator.part_packets part0 = before ++ [(prev, prev_ts)] ->
  AudioPacketIterator.part_packets part1 = (curr, curr_ts) :: after ->
  (curr_ts - (prev_ts + inject_Z (duration prev)) <= 0)%Q ->
  AudioPacketIterator._iterate_audio_packets_filling_gaps self
    (Some (part0 :: part1 :: parts))
  = gen_of_list
      (AudioPacketIterator.part_packets part0
       ++ AudioPacketIterator.part_packets part1
       ++ gaps_filled stream
            (List.last (AudioPacketIterator.part_packets part1) no_packet)
            (List.map AudioPacketIterator.part_packets parts)).
Proof.
  intros stream Hok Hfs Hrate Hne H0 H1 Hd.
  rewrite (filling_run self part0 (part1 :: parts) Hok Hne).
  fold stream. cbn [List.map gaps_filled].
  rewrite H0, H1, last_last. cbn [fst snd].
  rewrite (no_silence_packets_for_nonpositive stream _ _ Hfs Hrate Hd).
  cbn [List.app]. do 3 f_equal.
  f_equal. clear. revert curr curr_ts.
  induction after as [| y after IH]; intros curr curr_ts; [reflexivity |].
  change (List.last ((curr, curr_ts) :: y :: after) (prev, prev_ts))
    with (List.last (y :: after) (prev, prev_ts)).
  change (List.last ((curr, curr_ts) :: y :: after) no_packet)
    with (List.last (y :: after) no_packet).
  destruct y as [y yts]. apply IH.
Qed.

Lemma no_silence_when_parts_overlap_witness :
  let parts := [sample_part 1 0 1; sample_part 1 1 1] in
  let packet := mkPacket None [] None None 1024 None in
  AudioPacketIterator._iterate_audio_packets_filling_gaps (L:=sample_libav)
    (AudioPacketIterator.mk 0 (Some parts) sample_audio_stream true)
    (Some parts)
  = gen_of_list [(packet, 0%Q); (packet, 1%Q)].
Proof.
  intros parts packet.
  apply (no_silence_when_parts_overlap (L:=sample_libav)
           (AudioPacketIterator.mk 0 (Some parts) sample_audio_stream true)
           (sample_part 1 0 1) (sample_part 1 1 1) []
           [] packet 0 packet 1 []).
  - reflexivity.
  - reflexivity.
  - vm_compute. discriminate.
  - repeat constructor; vm_compute; discriminate.
  - reflexivity.
  - reflexivity.
  - vm_compute. discriminate.
Defined.

(** X17. When the silence generator cannot run on the export stream (its
    sample format is not in [_format_dtypes]: [KeyError]; else its frame
    size is 0: [ZeroDivisionError]), two audio parts that both yield
    packets make the gap-filling iterator yield the packets of the first
    part and then raise, whether or not there is a gap between the parts. *)
Theorem boundary_raises_when_silence_fails {L : Libav}
    (self : AudioPacketIterator.t) (e : exn) (part0 part1 : AudioPart)
    (parts : list AudioPart) :
  silence_fails (AudioPacketIterator.audio_export_stream self) = Some e ->
  AudioPacketIterator.part_packets part0 <> [] ->
  AudioPacketIterator.part_packets part1 <> [] ->
  AudioPacketIterator._iterate_audio_packets_filling_gaps self
    (Some (part0 :: part1 :: parts))
  = mkGen (AudioPacketIterator.part_packets part0) (Raise e).
Proof.
  intros Hfail H0 H1.
  unfold AudioPacketIterator._iterate_audio_packets_filling_gaps. simpl.
  rewrite <- app_assoc. simpl. rewrite fill_loop_after_first_part.
  destruct (AudioPacketIterator.part_packets part1) as [| [q qts] ps1];
    [contradiction H1; reflexivity |].
  cbn [List.map List.app]. unfold AudioPacketIterator.with_ts_as_raw at 1.
  cbn [fst snd].
  rewrite (boundary_raises _ e _ _ _ _ _ _ Hfail H0).
  unfold gen_prepend. simpl. rewrite app_nil_r. reflexivity.
Qed.

Lemma boundary_raises_when_silence_fails_witness :
  let parts := [sample_part 1 0 1; sample_part 1 5000 1] in
  AudioPacketIterator._iterate_audio_packets_filling_gaps (L:=sample_libav)
    (AudioPacketIterator.mk 0 (Some parts) sample_pcm_stream true) (Some parts)
  = mkGen [(mkPacket None [] None None 1024 None, 0%Q)]
      (Raise ZeroDivisionError).
Proof.
  intro parts.
  apply (boundary_raises_when_silence_fails (L:=sample_libav)
           (AudioPacketIterator.mk 0 (Some parts) sample_pcm_stream true)
           ZeroDivisionError (sample_part 1 0 1) (sample_part 1 5000 1) []).
  - reflexivity.
  - vm_compute. discriminate.
  - vm_compute. discriminate.
Defined.

(** X19. The packets [iterate_audio_packets] yields are all put on the
    audio stream with a pts and an equal dts, and their pts are strictly
    increasing, whatever the timestamps of the audio frames. *)
Theorem audio_pts_strictly_increasing {L : Libav}
    (self : AudioPacketIterator.t) :
  let out := yielded (AudioPacketIterator.iterate_audio_packets self) in
  Forall stamped_for_audio out /\ StronglySorted Z.lt (pts_values out).
Proof.
  intro out. subst out. unfold AudioPacketIterator.iterate_audio_packets.
  match goal with |- context [AudioPacketIterator.pts_loop self ?l ?i ?e] =>
    destruct (pts_loop_increasing self i l e) as (H1 & H2 & _) end.
  split; assumption.
Qed.

(** X20. When the audio time base is not 0 and no packet of the inner
    generator lies before the start time, [iterate_audio_packets] yields
    one packet for each of them, in order, with payload and duration
    untouched, and ends the way the inner generator ends. *)
Theorem audio_packets_all_kept {L : Libav} (self : AudioPacketIterator.t) :
  Qeq_bool (audio_time_base (AudioPacketIterator.audio_export_stream self)) 0
  = false ->
  Forall (fun pt => (AudioPacketIterator.start_time self <= snd pt)%Q)
    (yielded (packet_with_ts_iterator self)) ->
  let g := AudioPacketIterator.iterate_audio_packets self in
  List.map payload (yielded g)
  = List.map (fun pt => payload (fst pt)) (yielded (packet_with_ts_iterator self))
  /\ List.map duration (yielded g)
     = List.map (fun pt => duration (fst pt))
         (yielded (packet_with_ts_iterator self))
  /\ ending g = ending (packet_with_ts_iterator self).
Proof.
  intros Htb Hall g. subst g.
  apply (pts_loop_keeps_all self _ Htb Hall).
Qed.

Lemma audio_packets_all_kept_witness :
  let self :=
    AudioPacketIterator.mk 0 (Some [sample_part 3 0 (1 # 10)])
      sample_audio_stream true in
  let g := AudioPacketIterator.iterate_audio_packets (L:=sample_libav) self in
  List.map duration (yielded g) = [1024; 1024; 1024]
  /\ ending g = StopIteration.
Proof.
  intros self g.
  destruct (audio_packets_all_kept (L:=sample_libav) self) as (_ & H2 & H3).
  - reflexivity.
  - repeat constructor; vm_compute; discriminate.
  - split; [exact H2 | exact H3].
Defined.

(** X21. Draining for one frame neither loses nor repeats an audio packet:
    what is yielded now followed by what is left of the iterator is what
    was there. Among the packets yielded only the last can be later than
    the frame; if none is, the iterator is used up and its way of ending
    (exhausted, the early return, an exception) is passed on now, else it
    is kept for a later call. *)
Theorem drain_splits_the_iterator
    (tb frame_ts : Q) (items : list Packet) (e : gen_end) :
  Forall (fun a => pts a <> None) items ->
  let now := fst (MPEG_Audio_Writer.drain tb frame_ts items e) in
  let left := snd (MPEG_Audio_Writer.drain tb frame_ts items e) in
  yielded now ++ yielded left = items
  /\ Forall (not_later_than tb frame_ts) (List.removelast (yielded now))
  /\ ((ending now = e /\ left = mkGen [] StopIteration
       /\ Forall (not_later_than tb frame_ts) (yielded now))
      \/ (ending now = StopIteration /\ ending left = e
          /\ exists late, List.last (yielded now) late = late
               /\ List.In late (yielded now)
               /\ later_than tb frame_ts late)).
Proof. apply drain_conserves. Qed.

Lemma drain_splits_the_iterator_witness :
  let a := fun q => mkPacket (Some audio_stream_id) [] (Some q) (Some q) 1024 None in
  let items := [a 0; a 4800; a 9600] in
  let now := fst (MPEG_Audio_Writer.drain (1 # 48000) (1 # 20)
                    items StopIteration) in
  let left := snd (MPEG_Audio_Writer.drain (1 # 48000) (1 # 20)
                     items StopIteration) in
  yielded now = [a 0; a 4800] /\ yielded now ++ yielded left = items.
Proof.
  intros a items now left. split; [vm_compute; reflexivity |].
  destruct (drain_splits_the_iterator (1 # 48000) (1 # 20)
              items StopIteration) as (H & _).
  - repeat constructor; discriminate.
  - exact H.
Defined.

(** X22. An [MPEG_Audio_Writer] without audio parts encodes like an
    [MPEG_Writer]: the same packets, the same end, the same writer after. *)
Theorem audio_writer_without_audio {L : Libav}
    (w : AV_Writer) (f : Frame) (p : Z) :
  class_of w = MPEG_Audio_Writer_class ->
  audio_parts w = None ->
  encode_frame w f p = MPEG_Writer.encode_frame w f p.
Proof.
  intros Hclass Hnone. unfold encode_frame. rewrite Hclass.
  unfold MPEG_Audio_Writer.encode_frame.
  pose proof (MPEG_encode_frame_audio_fields w f p) as Ha.
  destruct (MPEG_Writer.encode_frame w f p) as [video w1]. simpl in Ha.
  rewrite Ha, Hnone. destruct (ending video); reflexivity.
Qed.

Lemma audio_writer_without_audio_witness :
  let w := match init_audio (L:=sample_libav) "world.mp4" 0 None with
           | inr w => configure w (frame_at 0 0)
           | inl _ => init MPEG_Audio_Writer_class "world.mp4" 0
           end in
  encode_frame w (frame_at 1 1) 65535
  = MPEG_Writer.encode_frame w (frame_at 1 1) 65535.
Proof.
  intro w.
  apply (audio_writer_without_audio (L:=sample_libav) w (frame_at 1 1) 65535);
    reflexivity.
Defined.

(** ** Audio packets over a whole run *)

Section AudioBalance.
Context {L : Libav}.

Lemma stamped_is_audio (a : Packet) : stamped_for_audio a -> is_audio a = true.
Proof. intros (H & _). unfold is_audio. rewrite H. reflexivity. Qed.

Lemma filter_audio_stamped (l : list Packet) :
  Forall stamped_for_audio l -> List.filter is_audio l = l.
Proof.
  induction 1 as [| a l Ha _ IH]; simpl; [reflexivity |].
  rewrite (stamped_is_audio a Ha), IH. reflexivity.
Qed.

Lemma stamped_has_pts (l : list Packet) :
  Forall stamped_for_audio l -> Forall (fun a => pts a <> None) l.
Proof.
  intro H. eapply Forall_impl; [| exact H].
  intros a (_ & q & -> & _). discriminate.
Qed.

Lemma stream_encode_no_audio (w : AV_Writer) (f : option VideoFrame) :
  List.filter is_audio (fst (stream_encode w f)) = []
  /\ remaining_audio (snd (stream_encode w f)) = remaining_audio w.
Proof.
  unfold stream_encode. destruct (video_encode _ _) as [packets c]. simpl.
  split; [| reflexivity].
  induction packets as [| p packets IH]; simpl; [reflexivity | exact IH].
Qed.

Lemma MPEG_encode_frame_no_audio (w : AV_Writer) (f : Frame) (p : Z) :
  List.filter is_audio (yielded (fst (MPEG_Writer.encode_frame w f p))) = []
  /\ remaining_audio (snd (MPEG_Writer.encode_frame w f p)) = remaining_audio w.
Proof.
  unfold MPEG_Writer.encode_frame.
  destruct (frame w) as [fr|]; [| auto].
  destruct (MPEG_Writer.update_planes _ _) as [planes [|]]; [| auto].
  match goal with |- context [stream_encode ?a ?b] =>
    pose proof (stream_encode_no_audio a b) as H;
    destruct (stream_encode a b) as [packets w1] end.
  exact H.
Qed.

(** The audio packets [encode_frame] yields are taken from the front of
    the iterator. *)
Lemma encode_frame_audio_balance (w : AV_Writer) (f : Frame) (p : Z) :
  Forall stamped_for_audio (remaining_audio w) ->
  List.filter is_audio (yielded (fst (encode_frame w f p)))
  ++ remaining_audio (snd (encode_frame w f p))
  = remaining_audio w.
Proof.
  intro Hst. unfold encode_frame. destruct (class_of w).
  - destruct (MPEG_encode_frame_no_audio w f p) as (-> & ->). reflexivity.
  - reflexivity.
  - unfold MPEG_Audio_Writer.encode_frame.
    destruct (MPEG_encode_frame_no_audio w f p) as (Hv & Hr).
    destruct (MPEG_Writer.encode_frame w f p) as [video w1]. simpl in Hv, Hr.
    assert (Hsame : List.filter is_audio (yielded video) ++ remaining_audio w1
                    = remaining_audio w) by (rewrite Hv, Hr; reflexivity).
    destruct (ending video) eqn:Eend; try exact Hsame.
    destruct (audio_parts w1); try exact Hsame.
    assert (Hraise : forall e,
              List.filter is_audio (yielded (gen_then video (gen_raise e)))
              ++ remaining_audio w1 = remaining_audio w).
    { intro e. unfold gen_then. rewrite Eend. simpl.
      rewrite app_nil_r. exact Hsame. }
    destruct (frame w1) as [fr|]; [| apply Hraise].
    destruct (audio_export_stream w1) as [astream|]; [| apply Hraise].
    destruct (audio_packet_iterator w1) as [it|] eqn:Eit; [| apply Hraise].
    destruct (vf_pts fr) as [frame_pts|]; [| apply Hraise].
    assert (Hit : yielded it = remaining_audio w).
    { rewrite <- Hr. unfold remaining_audio. rewrite Eit. reflexivity. }
    rewrite <- Hit in Hst.
    destruct (drain_conserves (audio_time_base astream)
                (inject_Z frame_pts * time_base w1)%Q (yielded it) (ending it)
                (stamped_has_pts _ Hst)) as (Hsplit & _).
    destruct (MPEG_Audio_Writer.drain _ _ _ _) as [now left]. simpl in *.
    unfold gen_then. rewrite Eend. simpl.
    unfold remaining_audio at 1. simpl.
    rewrite filter_app, Hv. simpl.
    assert (Hnow : Forall stamped_for_audio (yielded now)).
    { rewrite <- Hsplit in Hst. apply Forall_app in Hst. apply Hst. }
    rewrite (filter_audio_stamped _ Hnow), Hsplit. exact Hit.
Qed.

Lemma audio_muxed_app (a b : list effect) :
  audio_muxed (a ++ b) = audio_muxed a ++ audio_muxed b.
Proof. unfold audio_muxed. rewrite muxed_packets_app, filter_app. reflexivity. Qed.

Lemma configure_remaining (w : AV_Writer) (f : Frame) :
  remaining_audio (configure w f) = remaining_audio w.
Proof.
  unfold configure. destruct (configured w); [reflexivity |].
  unfold on_first_frame. destruct (class_of _); reflexivity.
Qed.

Lemma write_video_frame_audio_balance (w : AV_Writer) (f : Frame) :
  Forall stamped_for_audio (remaining_audio w) ->
  exists now,
    remaining_audio w = now ++ remaining_audio (fst (write_video_frame w f))
    /\ audio_muxed (effects (fst (write_video_frame w f)))
       = audio_muxed (effects w) ++ now.
Proof.
  intro Hst. unfold write_video_frame.
  destruct (closed w) eqn:C.
  { exists []. simpl. rewrite audio_muxed_app. unfold audio_muxed at 2. simpl.
    split; reflexivity. }
  pose proof (configure_ledger w f) as (_ & Hc & He).
  pose proof (configure_remaining w f) as Hr.
  set (w1 := configure w f) in *.
  destruct (Qltb _ _).
  { exists []. simpl. rewrite audio_muxed_app, He. unfold audio_muxed at 2.
    simpl. split; [| reflexivity].
    unfold remaining_audio in *. simpl. rewrite Hr. reflexivity. }
  assert (Henc : exists now,
            remaining_audio w = now ++ remaining_audio (fst (encode_and_mux w1 f))
            /\ audio_muxed (effects (fst (encode_and_mux w1 f)))
               = audio_muxed (effects w) ++ now).
  { unfold encode_and_mux.
    rewrite <- Hr in Hst.
    pose proof (encode_frame_audio_balance w1 f (next_pts w1 f) Hst) as Hbal.
    pose proof (encode_frame_ledger w1 f (next_pts w1 f)) as (_ & _ & _ & He').
    destruct (encode_frame w1 f (next_pts w1 f)) as [g w2]. simpl in *.
    pose proof (mux_loop_muxes_all (yielded g) false) as Hm.
    destruct (mux_loop false (yielded g)) as [es vpe]. simpl in Hm.
    exists (List.filter is_audio (yielded g)).
    assert (Hes : audio_muxed es = List.filter is_audio (yielded g)).
    { unfold audio_muxed. rewrite Hm. reflexivity. }
    rewrite <- Hr, <- Hbal, <- Hes.
    destruct (ending g); destruct vpe; simpl;
      rewrite ?audio_muxed_app, He', He;
      unfold remaining_audio; simpl;
      (split; [reflexivity |]);
      unfold audio_muxed; simpl; rewrite ?app_nil_r; reflexivity. }
  destruct (last_timestamp _) as [last_ts|]; [| exact Henc].
  destruct (Qltb _ _); [| exact Henc].
  rewrite release_open;
    [| rewrite Hc; exact C | apply configure_configured].
  destruct (stream_encode_no_audio w1 None) as (Hv & Hr').
  pose proof (stream_encode_ledger w1 None) as (_ & _ & _ & He').
  destruct (stream_encode w1 None) as [flushed s]. simpl in *.
  exists []. rewrite !audio_muxed_app, He', He.
  unfold remaining_audio in *. simpl. rewrite Hr', Hr.
  split; [reflexivity |].
  assert (Hfl : audio_muxed (List.map Mux flushed) = []).
  { unfold audio_muxed. rewrite <- Hv. f_equal. clear.
    induction flushed as [| p ps IH]; simpl; [reflexivity |].
    rewrite IH. reflexivity. }
  rewrite Hfl. unfold audio_muxed. simpl. rewrite !app_nil_r.
  reflexivity.
Qed.

Lemma run_audio_balance (frames : list Frame) (w : AV_Writer) :
  Forall stamped_for_audio (remaining_audio w) ->
  exists now,
    remaining_audio w = now ++ remaining_audio (fst (write_video_frames w frames))
    /\ audio_muxed (effects (fst (write_video_frames w frames)))
       = audio_muxed (effects w) ++ now.
Proof.
  revert w. induction frames as [| f frames IH]; simpl; intros w Hst.
  - exists []. rewrite app_nil_r. auto.
  - destruct (write_video_frame_audio_balance w f Hst) as (now1 & Hr1 & Hm1).
    destruct (write_video_frame w f) as [w1 o]. simpl in *.
    assert (Hst1 : Forall stamped_for_audio (remaining_audio w1)).
    { rewrite Hr1 in Hst. apply Forall_app in Hst. apply Hst. }
    destruct (IH w1 Hst1) as (now2 & Hr2 & Hm2).
    destruct (write_video_frames w1 frames) as [w2 os]. simpl in *.
    exists (now1 ++ now2).
    rewrite Hm2, Hm1, Hr1, Hr2, !app_assoc. auto.
Qed.

End AudioBalance.

(** X23. Over any sequence of [write_video_frame] calls the audio packets
    of the writer's iterator are muxed in their order, each at most once
    and none skipped: the audio packets muxed during the calls are a prefix
    of what the iterator held, and the iterator holds the rest. *)
Theorem audio_packets_muxed_in_order {L : Libav}
    (w : AV_Writer) (frames : list Frame) :
  Forall stamped_for_audio (remaining_audio w) ->
  let w' := fst (write_video_frames w frames) in
  exists now,
    remaining_audio w = now ++ remaining_audio w'
    /\ audio_muxed (effects w') = audio_muxed (effects w) ++ now.
Proof. intros Hst w'. apply run_audio_balance. exact Hst. Qed.

Lemma audio_packets_muxed_in_order_witness :
  let w := sample_audio_writer in
  let frames := [frame_at (1 # 20) 1; frame_at (1 # 4) 2] in
  let w' := fst (write_video_frames w frames) in
  List.length (remaining_audio w) = 3%nat
  /\ exists now,
       remaining_audio w = now ++ remaining_audio w'
       /\ audio_muxed (effects w') = audio_muxed (effects w) ++ now.
Proof.
  intros w frames w'. split; [vm_compute; reflexivity |].
  apply (audio_packets_muxed_in_order (L:=sample_libav) w frames).
  repeat constructor; vm_compute; eexists; split; reflexivity.
Defined.
